(** * Moodboard3D: a model of the 3D moodboard component

    The component (src/renderer/src/components/Moodboard3D.jsx) exists in two
    versions in the same file: the refined component (lines 1-530) and an
    earlier draft (lines 530-683).  Both are embedded here, each in its own
    module, with the names of the source.

    JavaScript numbers are IEEE 754 binary64 values, so they are modelled by
    Rocq's primitive floats: literals are rounded to the nearest double as the
    JavaScript parser does, and [+], [-], [*], [/] are the rounded operations.
    React state is passed explicitly: an event handler is a function from the
    state it closes over to the next state and the effects it performs on the
    event or on the page.  A handler reads the state of the latest render:
    the handlers are rebuilt when the cells they read change ([useCallback]
    with its dependencies) and the listeners are registered again with them
    ([useEffect], lines 339-356).  A per-frame callback ([useFrame]) is a
    function from what the instance retains to what it retains after the
    frame. *)

From Stdlib Require Import ZArith Bool List String Lia.
From Stdlib Require Import Floats DecimalString QArith.
From Stdlib Require Uint63.
Import ListNotations.

Set Warnings "-inexact-float".
Local Open Scope float_scope.

(* ================================================================= *)
(** ** JavaScript numbers *)

Module JS.

(** [Math.max(a, b)]: NaN when an argument is NaN; [+0] is larger than [-0]. *)
Definition Math_max (a b : float) : float :=
  if is_nan a || is_nan b then nan
  else if a <? b then b
  else if b <? a then a
  else if is_zero a && get_sign a then b else a.

(** [Math.min(a, b)]: NaN when an argument is NaN; [-0] is smaller than [+0]. *)
Definition Math_min (a b : float) : float :=
  if is_nan a || is_nan b then nan
  else if a <? b then a
  else if b <? a then b
  else if is_zero b && get_sign b then b else a.

(** An array index as a number (indices are below 2^32, so this is exact). *)
Definition Number_of_index (i : nat) : float :=
  of_uint63 (Uint63.of_Z (Z.of_nat i)).

(** [String(n)] for a natural number [n]. *)
Definition String_of_index (i : nat) : string :=
  NilZero.string_of_uint (Nat.to_uint i).

End JS.
Import JS.

(* ================================================================= *)
(** ** Predicates on doubles, to state the properties *)

(** [lo <= z && z <= hi], false when [z] is NaN. *)
Definition in_range (lo hi z : float) : bool := (lo <=? z) && (z <=? hi).

(** The three-way order on doubles, [None] when an argument is NaN. *)
Definition fcmp (a b : float) : option comparison :=
  SFcompare (Prim2SF a) (Prim2SF b).

Definition SFfinite (s : spec_float) : bool :=
  match s with S754_zero _ | S754_finite _ _ _ => true | _ => false end.

(** Neither NaN nor an infinity. *)
Definition finite_number (a : float) : bool := SFfinite (Prim2SF a).

(** Finite and different from both zeros. *)
Definition nonzero_finite (a : float) : bool :=
  match Prim2SF a with S754_finite _ _ _ => true | _ => false end.

(** Finite and not the negative zero. *)
Definition at_rest (a : float) : bool :=
  match Prim2SF a with
  | S754_finite _ _ _ | S754_zero false => true
  | _ => false
  end.

(* ================================================================= *)
(** ** Shared data and helpers *)

(** Arrays of three numbers, [[a, b, c]], read by index. *)
Record Array3 := arr3 { at0 : float; at1 : float; at2 : float }.

(** Objects [{ x, y }]. *)
Record Vec2 := vec2 { x : float; y : float }.

(** What a handler does besides setting state. *)
Inductive Effect :=
| PreventDefault
| ConsoleError
| ConsoleWarn (msg : string)
| LocationReload.

(** Line 56: [getRandom], with the draw of [Math.random()] made explicit. *)
Definition getRandom (random min max : float) : float :=
  random * (max - min) + min.

(** Line 57: [lerp]. *)
Definition lerp (start end_ factor : float) : float :=
  start + (end_ - start) * factor.

(** Clamping as the specification words it: a value below the range becomes
    the lower bound, a value above it the upper bound, any other value is
    kept.  To be compared with the [Math.max(lo, Math.min(v, hi))] of the
    wheel handlers. *)
Definition clamp (lo hi v : float) : float :=
  if v <? lo then lo else if hi <? v then hi else v.

(** The expression of [lerp] read over the rationals, without rounding; used
    to state the smoothing law that the rounded version approximates. *)
Definition lerp_exact (start end_ factor : Q) : Q :=
  (start + (end_ - start) * factor)%Q.

Fixpoint iterate {A : Type} (f : A -> A) (n : nat) (a : A) : A :=
  match n with
  | O => a
  | S k => f (iterate f k a)
  end.

(** [THREE.Vector3.prototype.lerp(v, alpha)] of three.js:
    [this.x += (v.x - this.x) * alpha], and the same for [y] and [z]. *)
Definition Vector3_lerp (this v : Array3) (alpha : float) : Array3 :=
  {| at0 := at0 this + (at0 v - at0 this) * alpha;
     at1 := at1 this + (at1 v - at1 this) * alpha;
     at2 := at2 this + (at2 v - at2 this) * alpha |}.

(* ================================================================= *)
(** ** The refined component (lines 1-530) *)

Module Refined.

(* --------------------------------------------------------------- *)
(** *** ImagePlane (lines 60-141) *)

Record ImagePlaneProps := {
  url : string;
  position : Array3;
  rotation : Array3;
  scale : Array3;
  index : nat;
  scrollOffset : float
}.

(** The three [useState] cells of an instance. *)
Record ImagePlaneState := {
  hovered : bool;
  clicked : bool;
  imageError : bool
}.

Definition ImagePlane_initial : ImagePlaneState :=
  {| hovered := false; clicked := false; imageError := false |}.

Definition setHovered (b : bool) (s : ImagePlaneState) : ImagePlaneState :=
  {| hovered := b; clicked := clicked s; imageError := imageError s |}.
Definition setClicked (b : bool) (s : ImagePlaneState) : ImagePlaneState :=
  {| hovered := hovered s; clicked := b; imageError := imageError s |}.
Definition setImageError (b : bool) (s : ImagePlaneState) : ImagePlaneState :=
  {| hovered := hovered s; clicked := clicked s; imageError := b |}.

(** Lines 67-73: the [useMemo] value, drawn once per instance. *)
Record FloatOffset := {
  fo_x : float; fo_y : float; fo_z : float;
  fo_speed : float; fo_amplitude : float
}.

Definition floatOffset_of_draws (r1 r2 r3 r4 r5 : float) : FloatOffset :=
  {| fo_x := getRandom r1 (-0.5) 0.5;
     fo_y := getRandom r2 (-0.3) 0.3;
     fo_z := getRandom r3 (-0.2) 0.2;
     fo_speed := getRandom r4 0.5 1.5;
     fo_amplitude := getRandom r5 0.3 0.8 |}.

(** The object behind [meshRef.current]. *)
Record Object3D := {
  obj_position : Array3;
  obj_scale : Array3;
  obj_rotation : Array3
}.

(** Line 87: [hovered ? 1.1 : clicked ? 0.95 : 1]. *)
Definition targetScale (s : ImagePlaneState) : float :=
  if hovered s then 1.1 else if clicked s then 0.95 else 1.

(** Lines 89-93: the vector the scale is eased toward. *)
Definition scaleTarget (p : ImagePlaneProps) (s : ImagePlaneState) : Array3 :=
  {| at0 := at0 (scale p) * targetScale s;
     at1 := at1 (scale p) * targetScale s;
     at2 := at2 (scale p) |}.

Section UseFrame.
(** [Math.sin] and [Math.cos] are the host's; the scale update does not
    depend on them. *)
Variables Math_sin Math_cos : float -> float.

(** Lines 75-100: the per-frame callback, [time] being
    [state.clock.elapsedTime]. *)
Definition ImagePlane_useFrame (p : ImagePlaneProps) (fo : FloatOffset)
    (s : ImagePlaneState) (time : float) (mesh : option Object3D)
    : option Object3D :=
  match mesh with
  | None => None
  | Some m =>
      let i := Number_of_index (index p) in
      let px := at0 (position p)
                + Math_sin (time * fo_speed fo + i) * fo_amplitude fo * fo_x fo in
      let py := at1 (position p)
                + Math_cos (time * fo_speed fo * 0.7 + i) * fo_amplitude fo * fo_y fo in
      let pz := at2 (position p)
                + scrollOffset p * 0.1 * (Number_of_index (index p mod 3) - 1) in
      let sc := Vector3_lerp (obj_scale m) (scaleTarget p s) 0.1 in
      let rz := at2 (rotation p) + Math_sin (time * 0.3 + i) * 0.02 in
      Some {| obj_position := arr3 px py pz;
              obj_scale := sc;
              obj_rotation := arr3 (at0 (obj_rotation m)) (at1 (obj_rotation m)) rz |}
  end.
End UseFrame.

(** The pointer and load handlers an element carries. *)
Record Handlers := {
  onPointerOver : option (ImagePlaneState -> ImagePlaneState);
  onPointerOut : option (ImagePlaneState -> ImagePlaneState);
  onPointerDown : option (ImagePlaneState -> ImagePlaneState);
  onPointerUp : option (ImagePlaneState -> ImagePlaneState);
  onError : option (ImagePlaneState -> ImagePlaneState)
}.

(** What an instance renders: the flat colored [<mesh>] of lines 105-121 or
    the textured [<Image>] of lines 126-139. *)
Inductive Element :=
| Mesh (color : string) (opacity : float)
       (position rotation scale : Array3) (h : Handlers)
| Image (url : string) (opacity : float)
        (position rotation scale : Array3) (h : Handlers).

(** Lines 102-140. *)
Definition ImagePlane (p : ImagePlaneProps) (s : ImagePlaneState) : Element :=
  if imageError s then
    Mesh ("hsl(" ++ String_of_index (index p * 30) ++ ", 70%, 60%)")
         (if hovered s then 1 else 0.8)
         (position p) (rotation p) (scale p)
         {| onPointerOver := Some (setHovered true);
            onPointerOut := Some (setHovered false);
            onPointerDown := Some (setClicked true);
            onPointerUp := Some (setClicked false);
            onError := None |}
  else
    Image (url p)
          (if hovered s then 1 else 0.9)
          (position p) (rotation p) (scale p)
          {| onPointerOver := Some (setHovered true);
             onPointerOut := Some (setHovered false);
             onPointerDown := Some (setClicked true);
             onPointerUp := Some (setClicked false);
             onError := Some (setImageError true) |}.

Definition handlers_of (e : Element) : Handlers :=
  match e with Mesh _ _ _ _ _ h | Image _ _ _ _ _ h => h end.
Definition opacity_of (e : Element) : float :=
  match e with Mesh _ o _ _ _ _ | Image _ o _ _ _ _ => o end.
(** The source an element loads, if it loads one. *)
Definition source_of (e : Element) : option string :=
  match e with Mesh _ _ _ _ _ _ => None | Image u _ _ _ _ _ => Some u end.
Definition color_of (e : Element) : option string :=
  match e with Mesh c _ _ _ _ _ => Some c | Image _ _ _ _ _ _ => None end.

(** The events that reach an element.  The [onError] prop is carried by the
    [<Image>] element, but the [Image] component of the library does not call
    it: it is the only writer of [imageError], and no event runs it. *)
Inductive PlaneEvent :=
| PointerOver | PointerOut | PointerDown | PointerUp.

Definition handler_for (h : Handlers) (ev : PlaneEvent)
    : option (ImagePlaneState -> ImagePlaneState) :=
  match ev with
  | PointerOver => onPointerOver h
  | PointerOut => onPointerOut h
  | PointerDown => onPointerDown h
  | PointerUp => onPointerUp h
  end.

(** An event runs the handler that the currently rendered element carries
    for it; an element without that handler ignores the event. *)
Definition ImagePlane_dispatch (p : ImagePlaneProps) (s : ImagePlaneState)
    (ev : PlaneEvent) : ImagePlaneState :=
  match handler_for (handlers_of (ImagePlane p s)) ev with
  | Some f => f s
  | None => s
  end.

Definition ImagePlane_run (p : ImagePlaneProps) (s : ImagePlaneState)
    (evs : list PlaneEvent) : ImagePlaneState :=
  fold_left (ImagePlane_dispatch p) evs s.

(* --------------------------------------------------------------- *)
(** *** CameraControls (lines 153-183) *)

Record Camera := { fov : float; cam_position : Array3 }.

Record CameraControlsProps := {
  cc_zoomLevel : float;
  cc_panOffset : Vec2;
  cc_targetPosition : Array3
}.

(** What an instance retains from frame to frame: the camera it drives and
    the [currentPosition] ref of line 155. *)
Record CameraControlsInstance := {
  camera : Camera;
  currentPosition : Array3
}.

(** Line 155 and the [camera] prop of the canvas (line 456). *)
Definition CameraControls_mount : CameraControlsInstance :=
  {| camera := {| fov := 75; cam_position := arr3 0 0 35 |};
     currentPosition := arr3 0 0 35 |}.

(** Lines 157-180: the per-frame callback. *)
Definition CameraControls_useFrame (p : CameraControlsProps)
    (c : CameraControlsInstance) : CameraControlsInstance :=
  let fov' := lerp (fov (camera c)) (75 / cc_zoomLevel p) 0.1 in
  let cur := currentPosition c in
  let c0 := lerp (at0 cur) (at0 (cc_targetPosition p) + x (cc_panOffset p)) 0.1 in
  let c1 := lerp (at1 cur) (at1 (cc_targetPosition p) + y (cc_panOffset p)) 0.1 in
  let c2 := lerp (at2 cur) (at2 (cc_targetPosition p)) 0.1 in
  {| camera := {| fov := fov'; cam_position := arr3 c0 c1 c2 |};
     currentPosition := arr3 c0 c1 c2 |}.

(* --------------------------------------------------------------- *)
(** *** Moodboard3D, the root component (lines 228-528) *)

(** The value of the [canvasError] cell: [null], the error object handed to
    [onError], or the message string. *)
Inductive CanvasError :=
| NoError
| ErrorObject (description : string)
| ErrorMessage (msg : string).

(** [if (canvasError)]: JavaScript truthiness. *)
Definition truthy (c : CanvasError) : bool :=
  match c with
  | NoError => false
  | ErrorObject _ => true
  | ErrorMessage m => negb (String.eqb m "")
  end.

(** Lines 229-235: the [useState] cells. *)
Record State := {
  zoomLevel : float;
  panOffset : Vec2;
  targetPosition : Array3;
  scrollProgress : float;
  isDragging : bool;
  dragStart : Vec2;
  canvasError : CanvasError
}.

Definition initial : State :=
  {| zoomLevel := 1;
     panOffset := vec2 0 0;
     targetPosition := arr3 0 0 35;
     scrollProgress := 0;
     isDragging := false;
     dragStart := vec2 0 0;
     canvasError := NoError |}.

Definition setZoomLevel (f : float -> float) (s : State) : State :=
  {| zoomLevel := f (zoomLevel s); panOffset := panOffset s;
     targetPosition := targetPosition s; scrollProgress := scrollProgress s;
     isDragging := isDragging s; dragStart := dragStart s;
     canvasError := canvasError s |}.
Definition setPanOffset (v : Vec2) (s : State) : State :=
  {| zoomLevel := zoomLevel s; panOffset := v;
     targetPosition := targetPosition s; scrollProgress := scrollProgress s;
     isDragging := isDragging s; dragStart := dragStart s;
     canvasError := canvasError s |}.
Definition setTargetPosition (f : Array3 -> Array3) (s : State) : State :=
  {| zoomLevel := zoomLevel s; panOffset := panOffset s;
     targetPosition := f (targetPosition s); scrollProgress := scrollProgress s;
     isDragging := isDragging s; dragStart := dragStart s;
     canvasError := canvasError s |}.
Definition setScrollProgress (v : float) (s : State) : State :=
  {| zoomLevel := zoomLevel s; panOffset := panOffset s;
     targetPosition := targetPosition s; scrollProgress := v;
     isDragging := isDragging s; dragStart := dragStart s;
     canvasError := canvasError s |}.
Definition setIsDragging (b : bool) (s : State) : State :=
  {| zoomLevel := zoomLevel s; panOffset := panOffset s;
     targetPosition := targetPosition s; scrollProgress := scrollProgress s;
     isDragging := b; dragStart := dragStart s;
     canvasError := canvasError s |}.
Definition setDragStart (v : Vec2) (s : State) : State :=
  {| zoomLevel := zoomLevel s; panOffset := panOffset s;
     targetPosition := targetPosition s; scrollProgress := scrollProgress s;
     isDragging := isDragging s; dragStart := v;
     canvasError := canvasError s |}.
Definition setCanvasError (c : CanvasError) (s : State) : State :=
  {| zoomLevel := zoomLevel s; panOffset := panOffset s;
     targetPosition := targetPosition s; scrollProgress := scrollProgress s;
     isDragging := isDragging s; dragStart := dragStart s;
     canvasError := c |}.

(** A handler returns the effects it performs and the next state. *)
Definition Handler := State -> list Effect * State.

(** Lines 274-282. *)
Definition handleWheel (deltaY : float) : Handler := fun s =>
  ([PreventDefault],
   setZoomLevel (fun prevZoom =>
     let zoomSpeed := 0.002 in
     let newZoom := prevZoom - deltaY * zoomSpeed in
     Math_max 0.3 (Math_min newZoom 8)) s).

(** Lines 285-288. *)
Definition handleMouseDown (clientX clientY : float) : Handler := fun s =>
  ([], setDragStart (vec2 clientX clientY) (setIsDragging true s)).

(** Lines 290-300. *)
Definition handleMouseMove (clientX clientY : float) : Handler := fun s =>
  if negb (isDragging s) then ([], s)
  else
    let deltaX := clientX - x (dragStart s) in
    let deltaY := clientY - y (dragStart s) in
    ([], setPanOffset (vec2 (deltaX * 0.05) (- deltaY * 0.05)) s).

(** Lines 302-306. *)
Definition handleMouseUp : Handler := fun s =>
  ([], setPanOffset (vec2 0 0) (setIsDragging false s)).

(** Lines 309-336. *)
Definition handleKeyDown (key : string) : Handler := fun s =>
  let moveSpeed := 2 in
  if (key =? "ArrowUp")%string || (key =? "w")%string then
    ([], setTargetPosition (fun prev => arr3 (at0 prev) (at1 prev + moveSpeed) (at2 prev)) s)
  else if (key =? "ArrowDown")%string || (key =? "s")%string then
    ([], setTargetPosition (fun prev => arr3 (at0 prev) (at1 prev - moveSpeed) (at2 prev)) s)
  else if (key =? "ArrowLeft")%string || (key =? "a")%string then
    ([], setTargetPosition (fun prev => arr3 (at0 prev - moveSpeed) (at1 prev) (at2 prev)) s)
  else if (key =? "ArrowRight")%string || (key =? "d")%string then
    ([], setTargetPosition (fun prev => arr3 (at0 prev + moveSpeed) (at1 prev) (at2 prev)) s)
  else if (key =? " ")%string then
    ([PreventDefault],
     setZoomLevel (fun _ => 1) (setTargetPosition (fun _ => arr3 0 0 35) s))
  else ([], s).

(** Lines 362-366: the per-frame callback of [ScrollContent]; [scroll] is
    what [useScroll()] returned, [offset] its current offset. *)
Definition ScrollContent_useFrame (scroll : option float) : Handler := fun s =>
  match scroll with
  | Some offset => ([], setScrollProgress offset s)
  | None => ([], s)
  end.

(** Lines 464-467. *)
Definition Canvas_onError (description : string) : Handler := fun s =>
  ([ConsoleError], setCanvasError (ErrorObject description) s).

(** Lines 470-474. *)
Definition on_webglcontextlost : Handler := fun s =>
  ([PreventDefault; ConsoleWarn "WebGL context lost"],
   setCanvasError (ErrorMessage "WebGL context lost") s).

(** Lines 195-221: the height of the bar, in percent. *)
Definition ScrollIndicator (scrollProgress : float) : float :=
  scrollProgress * 100.

(** What the root renders: the error view of lines 387-417, whose only
    control is the button, or the scene of lines 420-527. *)
Inductive View :=
| ErrorView (button_onClick : list Effect)
| SceneView (cursor : string) (indicator : float) (controls : CameraControlsProps).

(** Lines 385-527. *)
Definition Moodboard3D (s : State) : View :=
  if truthy (canvasError s) then ErrorView [LocationReload]
  else SceneView (if isDragging s then "grabbing" else "grab")
                 (ScrollIndicator (scrollProgress s))
                 {| cc_zoomLevel := zoomLevel s;
                    cc_panOffset := panOffset s;
                    cc_targetPosition := targetPosition s |}.

Definition is_error_view (v : View) : bool :=
  match v with ErrorView _ => true | SceneView _ _ _ => false end.

(** Everything that calls into a mounted root component: the five listeners
    of lines 343-347, the frame of [ScrollContent] and the listener for a lost
    context.  The [onError] prop of [<Canvas>] (lines 464-467, [Canvas_onError]
    above) is not among them: the library does not call it when the rendering
    surface cannot be created, so nothing runs that handler. *)
Inductive Event :=
| Wheel (deltaY : float)
| MouseDown (clientX clientY : float)
| MouseMove (clientX clientY : float)
| MouseUp
| KeyDown (key : string)
| ScrollFrame (scroll : option float)
| ContextLost.

Definition handle (ev : Event) : Handler :=
  match ev with
  | Wheel d => handleWheel d
  | MouseDown cx cy => handleMouseDown cx cy
  | MouseMove cx cy => handleMouseMove cx cy
  | MouseUp => handleMouseUp
  | KeyDown k => handleKeyDown k
  | ScrollFrame sc => ScrollContent_useFrame sc
  | ContextLost => on_webglcontextlost
  end.

(** One event, handled.  [step] and [run] give the event to its handler in
    whatever state the component is: this is what the program does as long as
    the rendering surface has not failed.  After a failure the program may
    handle fewer events (the listeners of lines 343-347 are not registered
    again once the container is gone), so there [run] describes the runs in
    which the events are still handled. *)
Definition step (s : State) (ev : Event) : State := snd (handle ev s).

Definition run (s : State) (evs : list Event) : State := fold_left step evs s.

(** The states a run goes through, the starting state included. *)
Fixpoint states (s : State) (evs : list Event) : list State :=
  match evs with
  | [] => [s]
  | ev :: rest => s :: states (step s ev) rest
  end.

(** The failure of the rendering surface that the component is told of. *)
Definition is_failure (ev : Event) : bool :=
  match ev with ContextLost => true | _ => false end.

(** A wheel event whose [deltaY] is a number. *)
Definition well_formed (ev : Event) : bool :=
  match ev with Wheel d => negb (is_nan d) | _ => true end.

Definition is_reload (e : Effect) : bool :=
  match e with LocationReload => true | _ => false end.

(** For each state of a run, whether the root renders the error view. *)
Definition error_views (s : State) (evs : list Event) : list bool :=
  map (fun s' => is_error_view (Moodboard3D s')) (states s evs).

(** How often consecutive renderings go from the scene to the error view. *)
Fixpoint entries_into_error (vs : list bool) : nat :=
  match vs with
  | a :: (b :: _) as rest =>
      (if negb a && b then 1 else 0) + entries_into_error rest
  | _ => 0
  end.

(* --------------------------------------------------------------- *)
(** *** The layout of the images (lines 239-271) *)

(** An entry of [imageElements]. *)
Record ImageDescriptor := {
  d_url : string;
  d_position : Array3;
  d_rotation : Array3;
  d_scale : Array3
}.

(** [Math.PI]. *)
Definition Math_PI : float := 3.141592653589793.

Section Layout.
(** [Math.sin] and [Math.cos] are the host's; [Math_random k] is what the
    k-th call of [Math.random()] returns. *)
Variables Math_sin Math_cos : float -> float.
Variable Math_random : nat -> float.

(** A computation that calls [Math.random()]: from the number of calls made
    so far to its result and the number of calls made after it. *)
Definition Random (A : Type) : Type := nat -> A * nat.

Definition ret {A : Type} (a : A) : Random A := fun k => (a, k).

Definition bind {A B : Type} (m : Random A) (f : A -> Random B) : Random B :=
  fun k => let (a, k') := m k in f a k'.

Definition random : Random float := fun k => (Math_random k, S k).

(** Line 56, called. *)
Definition getRandom_call (min max : float) : Random float :=
  bind random (fun r => ret (getRandom r min max)).

(** Lines 240-270: the body of the [map] callback. *)
Definition imageElement (path : string) (i : nat) : Random ImageDescriptor :=
  let layer := Number_of_index (i / 5) in
  let indexInLayer := Number_of_index (i mod 5) in
  let angle := indexInLayer / 5 * Math_PI * 2 in
  let radius := 12 + layer * 6 in
  bind (getRandom_call (-4) 4) (fun jx =>
  let px := Math_cos angle * radius + jx in
  bind (getRandom_call (-4) 4) (fun jy =>
  let py := Math_sin angle * radius + jy in
  bind (getRandom_call (-2) 2) (fun jz =>
  let pz := layer * -3 + jz in
  bind random (fun r =>
  let baseSize := 3 + r * 2 in
  bind (getRandom_call 0.8 1.3) (fun aspectRatio =>
  bind (getRandom_call (-0.1) 0.1) (fun rx =>
  bind (getRandom_call (-0.1) 0.1) (fun ry =>
  bind (getRandom_call (-0.2) 0.2) (fun rz =>
  ret {| d_url := path;
         d_position := arr3 px py pz;
         d_rotation := arr3 rx ry rz;
         d_scale := arr3 (baseSize * aspectRatio) baseSize 1 |})))))))).

(** [paths.map((path, i) => ...)], from index [i] on. *)
Fixpoint imageElements_from (i : nat) (paths : list string)
    : Random (list ImageDescriptor) :=
  match paths with
  | [] => ret []
  | path :: rest =>
      bind (imageElement path i) (fun d =>
      bind (imageElements_from (S i) rest) (fun ds => ret (d :: ds)))
  end.

(** Lines 239-271, [imagePaths] being the catalog of lines 32-53. *)
Definition imageElements (imagePaths : list string)
    : Random (list ImageDescriptor) :=
  imageElements_from 0 imagePaths.
End Layout.

(* --------------------------------------------------------------- *)
(** *** ScrollContent (lines 359-383) and the canvas (lines 455-463) *)

(** Line 378: [scroll?.offset || 0]; zero, NaN and a missing [scroll] are
    falsy. *)
Definition offset_or_zero (scroll : option float) : float :=
  match scroll with
  | Some offset => if is_nan offset || is_zero offset then 0 else offset
  | None => 0
  end.

(** Lines 370-380: the props of the planes, from index [i] on. *)
Fixpoint planes_from (i : nat) (scroll : option float)
    (images : list ImageDescriptor) : list ImagePlaneProps :=
  match images with
  | [] => []
  | image :: rest =>
      {| url := d_url image;
         position := d_position image;
         rotation := d_rotation image;
         scale := d_scale image;
         index := i;
         scrollOffset := offset_or_zero scroll |}
      :: planes_from (S i) scroll rest
  end.

Definition ScrollContent (scroll : option float)
    (imageElements : list ImageDescriptor) : list ImagePlaneProps :=
  planes_from 0 scroll imageElements.

(** Line 463: [Math.min(window.devicePixelRatio, 2)]. *)
Definition Canvas_dpr (devicePixelRatio : float) : float :=
  Math_min devicePixelRatio 2.

(** The frames of a mounted [CameraControls], each with the props of its
    render. *)
Definition CameraControls_run (c : CameraControlsInstance)
    (props : list CameraControlsProps) : CameraControlsInstance :=
  fold_left (fun c' p => CameraControls_useFrame p c') props c.

(* --------------------------------------------------------------- *)
(** *** The listeners (lines 339-356) *)

(** A mounted root component: its state and whether the five listeners of
    lines 343-347 are registered at the moment. *)
Record Mounted := {
  state : State;
  listening : bool
}.

(** Whether the container of line 421 is rendered, so that [canvasRef.current]
    is set. *)
Definition in_scene (s : State) : bool := negb (truthy (canvasError s)).

(** After the first render the effect finds the container and registers. *)
Definition mount : Mounted := {| state := initial; listening := true |}.

(** Which events call into the component.  The wheel and mousedown listeners
    sit on the container, which receives events while it is rendered; the
    mousemove, mouseup and keydown listeners sit on the document; frames run
    while the canvas, a child of the container, is rendered; the listener for
    a lost context is registered on the canvas element when it is created and
    is never removed. *)
Definition delivered (m : Mounted) (ev : Event) : bool :=
  match ev with
  | Wheel _ | MouseDown _ _ => listening m && in_scene (state m)
  | MouseMove _ _ | MouseUp | KeyDown _ => listening m
  | ScrollFrame _ => in_scene (state m)
  | ContextLost => true
  end.

(** Line 356: of the five handlers only [handleMouseMove] is ever rebuilt, when
    [isDragging] or [dragStart] change (line 300); [setDragStart] is called
    with a new object at every mousedown, and nowhere else. *)
Definition effect_reruns (before after : State) (ev : Event) : bool :=
  negb (Bool.eqb (isDragging before) (isDragging after))
  || match ev with MouseDown _ _ => true | _ => false end.

(** One event of the program.  A delivered event is handled; if the render
    that follows rebuilds [handleMouseMove], the effect runs again: its
    cleanup removes the five listeners (lines 349-355) and its body registers
    them again only if the container is rendered (line 341). *)
Definition program_step (m : Mounted) (ev : Event) : Mounted :=
  if delivered m ev then
    let s' := step (state m) ev in
    {| state := s';
       listening := if effect_reruns (state m) s' ev then in_scene s'
                    else listening m |}
  else m.

Definition program_run (m : Mounted) (evs : list Event) : Mounted :=
  fold_left program_step evs m.



(* --------------------------------------------------------------- *)
(** *** Kinds of events, to state what each handler leaves alone *)

(** The keys with a case of their own in [handleKeyDown]. *)
Definition handled_keys : list string :=
  ["ArrowUp"; "w"; "ArrowDown"; "s"; "ArrowLeft"; "a"; "ArrowRight"; "d"; " "]%string.

Definition is_wheel_or_space (ev : Event) : bool :=
  match ev with
  | Wheel _ => true
  | KeyDown k => String.eqb k " "
  | _ => false
  end.

Definition is_mouse (ev : Event) : bool :=
  match ev with
  | MouseDown _ _ | MouseMove _ _ | MouseUp => true
  | _ => false
  end.

Definition is_key (ev : Event) : bool :=
  match ev with KeyDown _ => true | _ => false end.

(** The offset of the last frame that had a [scroll], [d] when there is none. *)
Fixpoint last_offset (d : float) (evs : list Event) : float :=
  match evs with
  | [] => d
  | ScrollFrame (Some offset) :: rest => last_offset offset rest
  | _ :: rest => last_offset d rest
  end.

End Refined.

(* ================================================================= *)
(** ** The earlier draft (lines 530-683) *)

Module Draft.

(** Lines 593-603: the per-frame callback of the draft's [CameraControls];
    the camera is the only thing it touches. *)
Definition CameraControls_useFrame (zoomLevel : float) (c : Refined.Camera)
    : Refined.Camera :=
  {| Refined.fov := 75 / zoomLevel;
     Refined.cam_position := Refined.cam_position c |}.

(** Line 608: the only state cell. *)
Record State := { zoomLevel : float }.

Definition initial : State := {| zoomLevel := 1 |}.

(** Lines 631-638. *)
Definition handleWheel (deltaY : float) (s : State) : list Effect * State :=
  ([PreventDefault],
   {| zoomLevel :=
        let newZoom := zoomLevel s - deltaY * 0.001 in
        let newZoom := Math_max 0.1 (Math_min newZoom 5) in
        newZoom |}).

Definition step (s : State) (deltaY : float) : State := snd (handleWheel deltaY s).

Fixpoint states (s : State) (ds : list float) : list State :=
  match ds with
  | [] => [s]
  | d :: rest => s :: states (step s d) rest
  end.

(** Lines 611-628: the body of the [map] callback; the draft places the
    images at random in a box. *)
Definition imageElement (Math_random : nat -> float) (path : string)
    : Refined.Random Refined.ImageDescriptor :=
  let getRandom_call := Refined.getRandom_call Math_random in
  Refined.bind (getRandom_call (-30) 30) (fun px =>
  Refined.bind (getRandom_call (-30) 30) (fun py =>
  Refined.bind (getRandom_call (-20) 20) (fun pz =>
  Refined.bind (getRandom_call 2 8) (fun sz =>
  Refined.bind (getRandom_call (-0.1) 0.1) (fun rotX =>
  Refined.bind (getRandom_call (-0.1) 0.1) (fun rotY =>
  Refined.bind (getRandom_call (-0.1) 0.1) (fun rotZ =>
  Refined.bind (getRandom_call 0.8 1.2) (fun a =>
  Refined.bind (getRandom_call 0.8 1.2) (fun b =>
  Refined.ret {| Refined.d_url := path;
                 Refined.d_position := arr3 px py pz;
                 Refined.d_rotation := arr3 rotX rotY rotZ;
                 Refined.d_scale := arr3 (sz * a) (sz * b) 1 |}))))))))).

(** Lines 611-628: [imagePaths.map(...)], evaluated at every render. *)
Fixpoint imageElements (Math_random : nat -> float) (imagePaths : list string)
    : Refined.Random (list Refined.ImageDescriptor) :=
  match imagePaths with
  | [] => Refined.ret []
  | path :: rest =>
      Refined.bind (imageElement Math_random path) (fun d =>
      Refined.bind (imageElements Math_random rest) (fun ds =>
      Refined.ret (d :: ds)))
  end.

End Draft.

(* ================================================================= *)
(** ** The model on concrete inputs *)

Example Math_max_zeros :
  Math_max 0 (-0) = 0 /\ Math_max (-0) 0 = 0 /\ Math_min 0 (-0) = -0 /\
  Math_max nan 1 = nan /\ Math_min 2 nan = nan.
Proof. repeat split. Qed.

Example wheel_down_100 :
  Refined.zoomLevel (Refined.step Refined.initial (Refined.Wheel 100)) = 0.8.
Proof. reflexivity. Qed.

Example wheel_far_up :
  Refined.zoomLevel (Refined.step Refined.initial (Refined.Wheel (-5000))) = 8 /\
  Draft.zoomLevel (Draft.step Draft.initial (-5000)) = 5 /\
  Draft.zoomLevel (Draft.step Draft.initial 5000) = 0.1.
Proof. repeat split. Qed.

Example drag_example :
  Refined.panOffset
    (Refined.run Refined.initial
       [Refined.MouseDown 100 100; Refined.MouseMove 120 90; Refined.MouseMove 140 60])
  = vec2 2 2.
Proof. reflexivity. Qed.

Example fallback_color_of_plane_7 :
  Refined.color_of
    (Refined.ImagePlane
       {| Refined.url := "data:image/png;base64,"; Refined.position := arr3 0 0 0;
          Refined.rotation := arr3 0 0 0; Refined.scale := arr3 4 3 1;
          Refined.index := 7; Refined.scrollOffset := 0 |}
       {| Refined.hovered := false; Refined.clicked := false;
          Refined.imageError := true |})
  = Some "hsl(210, 70%, 60%)"%string.
Proof. reflexivity. Qed.

Example camera_first_frame :
  Refined.CameraControls_useFrame
    {| Refined.cc_zoomLevel := 2; Refined.cc_panOffset := vec2 10 0;
       Refined.cc_targetPosition := arr3 0 0 35 |}
    Refined.CameraControls_mount
  = {| Refined.camera := {| Refined.fov := 71.25;
                            Refined.cam_position := arr3 1 0 35 |};
       Refined.currentPosition := arr3 1 0 35 |}.
Proof. reflexivity. Qed.

(* ================================================================= *)
(** ** Facts about doubles *)

Module FloatFacts.

Lemma ltb_fcmp a b :
  (a <? b) = match fcmp a b with Some Lt => true | _ => false end.
Proof. now rewrite FloatAxioms.ltb_spec. Qed.

Lemma leb_fcmp a b :
  (a <=? b) = match fcmp a b with Some (Lt | Eq) => true | _ => false end.
Proof. now rewrite FloatAxioms.leb_spec. Qed.

Lemma SFcompare_refl s : s <> S754_nan -> SFcompare s s = Some Eq.
Proof.
  destruct s as [[]|[]| |[] m e]; simpl; try congruence; intros _;
    rewrite Z.compare_refl; fold (Pos.compare m m); now rewrite Pos.compare_refl.
Qed.

Lemma SFcompare_none s t :
  SFcompare s t = None <-> s = S754_nan \/ t = S754_nan.
Proof.
  destruct s as [[]|[]| |[] m e], t as [[]|[]| |[] m' e']; simpl; split; intros H;
    try discriminate; try tauto; try (destruct H; discriminate).
Qed.

Lemma SFcompare_antisym s t :
  SFcompare t s = option_map CompOpp (SFcompare s t).
Proof.
  destruct s as [[]|[]| |[] m e], t as [[]|[]| |[] m' e']; simpl; try reflexivity;
    rewrite (Z.compare_antisym e e'); destruct (e ?= e')%Z; simpl; try reflexivity;
    fold (Pos.compare m m'); fold (Pos.compare m' m);
    rewrite (Pos.compare_antisym m m'); destruct (m ?= m')%positive; reflexivity.
Qed.

Lemma SFcompare_eq_finite s m e t :
  SFcompare (S754_finite s m e) t = Some Eq -> t = S754_finite s m e.
Proof.
  destruct t as [[]|[]| |s' m' e']; destruct s; simpl; try discriminate;
    destruct s'; try discriminate; destruct (Z.compare_spec e e'); try discriminate;
    fold (Pos.compare m m'); destruct (Pos.compare_spec m m'); try discriminate;
    intros _; congruence.
Qed.

Lemma SFltb_trans a b c :
  SFltb a b = true -> SFltb b c = true -> SFltb a c = true.
Proof.
  unfold SFltb.
  destruct a as [[]|[]| |[] ma ea], b as [[]|[]| |[] mb eb], c as [[]|[]| |[] mc ec];
    simpl; try discriminate; try reflexivity;
    fold (Pos.compare ma mb); fold (Pos.compare mb mc); fold (Pos.compare ma mc);
    destruct (Z.compare_spec ea eb), (Z.compare_spec eb ec), (Z.compare_spec ea ec);
    try discriminate; try reflexivity; try lia;
    destruct (Pos.compare_spec ma mb), (Pos.compare_spec mb mc),
             (Pos.compare_spec ma mc);
    simpl; try discriminate; try reflexivity; try lia.
Qed.

Lemma is_nan_spec a : is_nan a = true <-> Prim2SF a = S754_nan.
Proof.
  unfold is_nan. rewrite FloatAxioms.eqb_spec. unfold SFeqb.
  destruct (Prim2SF a) as [[]|[]| |[] m e] eqn:E; simpl;
    try (split; [discriminate|congruence]); try tauto;
    (rewrite Z.compare_refl; fold (Pos.compare m m); rewrite Pos.compare_refl; simpl;
     split; [discriminate|congruence]).
Qed.

Lemma not_nan_spec a : is_nan a = false <-> Prim2SF a <> S754_nan.
Proof. rewrite <- is_nan_spec. destruct (is_nan a); split; congruence. Qed.

Lemma fcmp_antisym a b : fcmp b a = option_map CompOpp (fcmp a b).
Proof. apply SFcompare_antisym. Qed.

Lemma fcmp_some a b :
  is_nan a = false -> is_nan b = false -> exists c, fcmp a b = Some c.
Proof.
  intros Ha Hb. apply not_nan_spec in Ha, Hb. unfold fcmp.
  destruct (SFcompare (Prim2SF a) (Prim2SF b)) eqn:E; eauto.
  apply SFcompare_none in E. tauto.
Qed.

Lemma fcmp_nan_l a b : is_nan a = true -> fcmp a b = None.
Proof. intros H. apply is_nan_spec in H. unfold fcmp. now rewrite H. Qed.

Lemma fcmp_nan_r a b : is_nan b = true -> fcmp a b = None.
Proof.
  intros H. apply is_nan_spec in H. unfold fcmp. rewrite H.
  now destruct (Prim2SF a).
Qed.

Lemma fcmp_refl a : is_nan a = false -> fcmp a a = Some Eq.
Proof. intros H. apply SFcompare_refl. now apply not_nan_spec. Qed.

Lemma fcmp_eq_nonzero a b :
  nonzero_finite a = true -> fcmp a b = Some Eq -> b = a.
Proof.
  unfold nonzero_finite, fcmp. intros Ha H.
  destruct (Prim2SF a) as [?|?| |s m e] eqn:E; try discriminate.
  apply Prim2SF_inj. rewrite E. now apply SFcompare_eq_finite.
Qed.

Lemma ltb_trans a b c : (a <? b) = true -> (b <? c) = true -> (a <? c) = true.
Proof. rewrite !FloatAxioms.ltb_spec. apply SFltb_trans. Qed.

Lemma leb_not_nan a b :
  (a <=? b) = true -> is_nan a = false /\ is_nan b = false.
Proof.
  rewrite leb_fcmp. intros H.
  destruct (is_nan a) eqn:Ha. { rewrite (fcmp_nan_l a b Ha) in H. discriminate. }
  destruct (is_nan b) eqn:Hb. { rewrite (fcmp_nan_r a b Hb) in H. discriminate. }
  auto.
Qed.

Lemma ltb_not_nan a b :
  (a <? b) = true -> is_nan a = false /\ is_nan b = false.
Proof.
  intros H. apply leb_not_nan. rewrite leb_fcmp. rewrite ltb_fcmp in H.
  now destruct (fcmp a b) as [[]|].
Qed.

Lemma nonzero_finite_not_nan a : nonzero_finite a = true -> is_nan a = false.
Proof.
  unfold nonzero_finite. intros H. apply not_nan_spec.
  now destruct (Prim2SF a).
Qed.

Lemma nonzero_finite_not_zero a : nonzero_finite a = true -> is_zero a = false.
Proof.
  unfold nonzero_finite, is_zero. rewrite FloatAxioms.eqb_spec.
  change (Prim2SF zero) with (S754_zero false).
  destruct (Prim2SF a) as [?|?| |[] m e]; try discriminate; reflexivity.
Qed.

(** *** Rounding never produces NaN *)

Section Rounding.
Variables prec emax : Z.

Lemma shr_1_nonneg mrs : (0 <= shr_m mrs)%Z -> (0 <= shr_m (shr_1 mrs))%Z.
Proof.
  destruct mrs as [m r s]. simpl.
  destruct m as [|[p|p|]|[p|p|]]; simpl; lia.
Qed.

Lemma iter_pos_shr_1_nonneg p : forall mrs,
  (0 <= shr_m mrs)%Z -> (0 <= shr_m (SpecFloat.iter_pos shr_1 p mrs))%Z.
Proof.
  induction p as [p IH|p IH|]; intros mrs H; simpl.
  - apply IH, IH, shr_1_nonneg, H.
  - apply IH, IH, H.
  - apply shr_1_nonneg, H.
Qed.

Lemma shr_fexp_nonneg m e l :
  (0 <= m)%Z -> (0 <= shr_m (fst (shr_fexp prec emax m e l)))%Z.
Proof.
  intros Hm. unfold shr_fexp, shr.
  assert (H0 : (0 <= shr_m (shr_record_of_loc m l))%Z).
  { destruct l as [|[]]; simpl; exact Hm. }
  destruct (fexp prec emax (Zdigits2 m + e) - e)%Z; simpl; auto.
  now apply iter_pos_shr_1_nonneg.
Qed.

Lemma round_nearest_even_nonneg m l :
  (0 <= m)%Z -> (0 <= round_nearest_even m l)%Z.
Proof.
  intros Hm. destruct l as [|[]]; simpl; try lia.
  destruct (Z.even m); lia.
Qed.

Lemma binary_round_aux_not_nan sx mx ex lx :
  (0 <= mx)%Z -> binary_round_aux prec emax sx mx ex lx <> S754_nan.
Proof.
  intros Hm. unfold binary_round_aux.
  pose proof (shr_fexp_nonneg mx ex lx Hm) as H1.
  destruct (shr_fexp prec emax mx ex lx) as [mrs' e']. simpl in H1.
  pose proof (shr_fexp_nonneg _ e' loc_Exact
                (round_nearest_even_nonneg _ (loc_of_shr_record mrs') H1)) as H2.
  destruct (shr_fexp prec emax _ e' loc_Exact) as [mrs'' e'']. simpl in H2.
  destruct (shr_m mrs'') as [|m|m]; try discriminate; try lia.
  destruct (e'' <=? emax - prec)%Z; discriminate.
Qed.

Lemma binary_normalize_not_nan m e sz :
  binary_normalize prec emax m e sz <> S754_nan.
Proof.
  destruct m as [|m|m]; simpl; try discriminate; unfold binary_round;
    destruct (shl_align _ _ _) as [mz ez]; apply binary_round_aux_not_nan; lia.
Qed.

Lemma SFsub_not_nan s t :
  SFfinite s = true -> t <> S754_nan -> SFsub prec emax s t <> S754_nan.
Proof.
  destruct s as [[]|[]| |sx mx ex], t as [[]|[]| |sy my ey]; simpl;
    try discriminate; try congruence.
  intros _ _. apply binary_normalize_not_nan.
Qed.

Lemma SFmul_not_nan s sy my ey :
  s <> S754_nan -> SFmul prec emax s (S754_finite sy my ey) <> S754_nan.
Proof.
  destruct s as [[]|[]| |sx mx ex]; simpl; try discriminate; try congruence.
  intros _. apply binary_round_aux_not_nan. lia.
Qed.
End Rounding.

(** A finite number minus a number is a number. *)
Lemma sub_not_nan a b :
  finite_number a = true -> is_nan b = false -> is_nan (a - b) = false.
Proof.
  intros Ha Hb. apply not_nan_spec. rewrite FloatAxioms.sub_spec.
  apply SFsub_not_nan; [exact Ha | now apply not_nan_spec].
Qed.

(** A number times a finite non-zero number is a number. *)
Lemma mul_not_nan a b :
  is_nan a = false -> nonzero_finite b = true -> is_nan (a * b) = false.
Proof.
  intros Ha Hb. apply not_nan_spec. rewrite FloatAxioms.mul_spec.
  unfold nonzero_finite in Hb.
  destruct (Prim2SF b) as [sb|sb| |sb mb eb]; try discriminate.
  apply SFmul_not_nan. now apply not_nan_spec.
Qed.

(** What lies between two finite bounds is finite. *)
Lemma in_range_finite lo hi z :
  nonzero_finite lo = true -> nonzero_finite hi = true ->
  in_range lo hi z = true -> finite_number z = true.
Proof.
  unfold nonzero_finite, finite_number, in_range. rewrite !FloatAxioms.leb_spec. unfold SFleb.
  destruct (Prim2SF lo) as [?|?| |sl ml el]; try discriminate.
  destruct (Prim2SF hi) as [?|?| |sh mh eh]; try discriminate.
  destruct (Prim2SF z) as [?|[]| |sz mz ez]; simpl; try reflexivity;
    destruct sl, sh; discriminate.
Qed.

(** *** [Math.max(lo, Math.min(v, hi))] *)

Lemma Math_min_le v hi :
  is_nan v = false -> is_nan hi = false ->
  (Math_min v hi <=? hi) = true /\ is_nan (Math_min v hi) = false.
Proof.
  intros Hv Hhi. unfold Math_min. rewrite Hv, Hhi. simpl.
  rewrite !ltb_fcmp, (fcmp_antisym v hi).
  destruct (fcmp_some v hi Hv Hhi) as [c Hc]. rewrite Hc.
  destruct c; simpl.
  - destruct (is_zero hi && get_sign hi); rewrite leb_fcmp.
    + now rewrite fcmp_refl.
    + now rewrite Hc.
  - now rewrite leb_fcmp, Hc.
  - now rewrite leb_fcmp, fcmp_refl.
Qed.

Lemma clamp_in_range lo hi v :
  (lo <=? hi) = true -> is_nan v = false ->
  in_range lo hi (Math_max lo (Math_min v hi)) = true.
Proof.
  intros Hlh Hv. destruct (leb_not_nan _ _ Hlh) as [Hlo Hhi].
  destruct (Math_min_le v hi Hv Hhi) as [Hm Hmn].
  set (m := Math_min v hi) in *.
  unfold Math_max, in_range. rewrite Hlo, Hmn. simpl.
  rewrite !ltb_fcmp, (fcmp_antisym lo m).
  destruct (fcmp_some lo m Hlo Hmn) as [c Hc]. rewrite Hc.
  destruct c; simpl.
  - destruct (is_zero lo && get_sign lo).
    + now rewrite Hm, leb_fcmp, Hc.
    + now rewrite Hlh, leb_fcmp, fcmp_refl.
  - now rewrite Hm, leb_fcmp, Hc.
  - now rewrite Hlh, leb_fcmp, fcmp_refl.
Qed.

(** Below the range the result is the lower bound. *)
Lemma clamp_below lo hi v :
  nonzero_finite lo = true -> (lo <? hi) = true -> (v <? lo) = true ->
  Math_max lo (Math_min v hi) = lo.
Proof.
  intros Hlo Hlh Hvl.
  destruct (ltb_not_nan _ _ Hvl) as [Hv _].
  destruct (ltb_not_nan _ _ Hlh) as [Hln Hhi].
  assert (Hvh : (v <? hi) = true) by (eapply ltb_trans; eauto).
  unfold Math_min. rewrite Hv, Hhi, Hvh. simpl.
  unfold Math_max. rewrite Hln, Hv, Hvl. simpl.
  rewrite ltb_fcmp, (fcmp_antisym v lo). rewrite ltb_fcmp in Hvl.
  destruct (fcmp v lo) as [[]|]; try discriminate. reflexivity.
Qed.

(** Above the range the result is the upper bound. *)
Lemma clamp_above lo hi v :
  (lo <? hi) = true -> (hi <? v) = true ->
  Math_max lo (Math_min v hi) = hi.
Proof.
  intros Hlh Hhv.
  destruct (ltb_not_nan _ _ Hhv) as [Hhi Hv].
  destruct (ltb_not_nan _ _ Hlh) as [Hlo _].
  unfold Math_min. rewrite Hv, Hhi, Hhv. simpl.
  assert (Hvh : (v <? hi) = false).
  { rewrite ltb_fcmp, (fcmp_antisym hi v). rewrite ltb_fcmp in Hhv.
    destruct (fcmp hi v) as [[]|]; try discriminate. reflexivity. }
  rewrite Hvh. unfold Math_max. rewrite Hlo, Hhi, Hlh. reflexivity.
Qed.

(** Inside the range the result is the value itself. *)
Lemma clamp_inside lo hi v :
  nonzero_finite lo = true -> nonzero_finite hi = true ->
  in_range lo hi v = true ->
  Math_max lo (Math_min v hi) = v.
Proof.
  intros Hlo Hhi Hin. unfold in_range in Hin.
  apply andb_true_iff in Hin. destruct Hin as [Hlv Hvh].
  destruct (leb_not_nan _ _ Hlv) as [Hln Hv].
  pose proof (nonzero_finite_not_nan hi Hhi) as Hhn.
  assert (Hmin : Math_min v hi = v).
  { unfold Math_min. rewrite Hv, Hhn. simpl.
    rewrite (nonzero_finite_not_zero hi Hhi). simpl.
    rewrite !ltb_fcmp, (fcmp_antisym v hi). rewrite leb_fcmp in Hvh.
    destruct (fcmp v hi) as [[]|]; try discriminate; reflexivity. }
  rewrite Hmin. unfold Math_max. rewrite Hln, Hv. simpl.
  rewrite (nonzero_finite_not_zero lo Hlo). simpl.
  rewrite !ltb_fcmp, (fcmp_antisym lo v). rewrite leb_fcmp in Hlv.
  destruct (fcmp lo v) as [[]|] eqn:E; try discriminate; simpl; try reflexivity.
  symmetry. now apply fcmp_eq_nonzero.
Qed.

End FloatFacts.
Import FloatFacts.

(* ================================================================= *)
(** ** Clamping of the zoom level *)

Lemma is_nan_eq v : is_nan v = true -> v = nan.
Proof.
  intros H. apply Prim2SF_inj. apply is_nan_spec in H. now rewrite H.
Qed.

(** The handlers' [Math.max(lo, Math.min(v, hi))] is the clamp of the
    specification, NaN included. *)
Lemma Math_max_min_clamp lo hi v :
  nonzero_finite lo = true -> nonzero_finite hi = true -> (lo <? hi) = true ->
  Math_max lo (Math_min v hi) = clamp lo hi v.
Proof.
  intros Hlo Hhi Hlh. unfold clamp.
  destruct (is_nan v) eqn:Hv.
  - rewrite !ltb_fcmp, (fcmp_nan_l v lo Hv), (fcmp_nan_r hi v Hv).
    unfold Math_min. rewrite Hv. simpl. unfold Math_max.
    rewrite orb_true_r. symmetry. now apply is_nan_eq.
  - destruct (v <? lo) eqn:Hvl; [now apply clamp_below|].
    destruct (hi <? v) eqn:Hhv; [now apply clamp_above|].
    apply clamp_inside; trivial. unfold in_range.
    pose proof (nonzero_finite_not_nan lo Hlo) as Hln.
    pose proof (nonzero_finite_not_nan hi Hhi) as Hhn.
    rewrite !leb_fcmp, (fcmp_antisym v lo), (fcmp_antisym hi v).
    rewrite ltb_fcmp in Hvl, Hhv.
    destruct (fcmp_some v lo Hv Hln) as [c Hc]. rewrite Hc in *.
    destruct (fcmp_some hi v Hhn Hv) as [c' Hc']. rewrite Hc' in *.
    destruct c, c'; simpl; try reflexivity; discriminate.
Qed.

(** One wheel step keeps a zoom level of the range inside the range. *)
Lemma wheel_step_in_range lo hi speed z deltaY :
  nonzero_finite lo = true -> nonzero_finite hi = true ->
  nonzero_finite speed = true -> (lo <=? hi) = true ->
  in_range lo hi z = true -> is_nan deltaY = false ->
  in_range lo hi (Math_max lo (Math_min (z - deltaY * speed) hi)) = true.
Proof.
  intros Hlo Hhi Hsp Hlh Hz Hd.
  apply clamp_in_range; [exact Hlh|].
  apply sub_not_nan.
  - now apply (in_range_finite lo hi).
  - now apply mul_not_nan.
Qed.

Lemma Refined_step_zoom_in_range s ev :
  Refined.well_formed ev = true ->
  in_range 0.3 8 (Refined.zoomLevel s) = true ->
  in_range 0.3 8 (Refined.zoomLevel (Refined.step s ev)) = true.
Proof.
  intros Hwf Hz. destruct ev as [d|cx cy|cx cy| |k|sc|]; unfold Refined.step; simpl.
  - apply wheel_step_in_range; try reflexivity; trivial.
    simpl in Hwf. now destruct (is_nan d).
  - exact Hz.
  - unfold Refined.handleMouseMove. now destruct (negb (Refined.isDragging s)).
  - exact Hz.
  - unfold Refined.handleKeyDown.
    repeat match goal with
           | |- context [if ?b then _ else _] => destruct b
           end; simpl; trivial.
  - now destruct sc.
  - exact Hz.
Qed.

Lemma Refined_states_zoom_in_range evs : forall s,
  forallb Refined.well_formed evs = true ->
  in_range 0.3 8 (Refined.zoomLevel s) = true ->
  Forall (fun s' => in_range 0.3 8 (Refined.zoomLevel s') = true)
         (Refined.states s evs).
Proof.
  induction evs as [|ev evs IH]; intros s Hwf Hz; simpl.
  - constructor; [exact Hz | constructor].
  - simpl in Hwf. apply andb_true_iff in Hwf. destruct Hwf as [Hev Hrest].
    constructor; [exact Hz|].
    apply IH; [exact Hrest|]. now apply Refined_step_zoom_in_range.
Qed.

Lemma Draft_states_zoom_in_range ds : forall s,
  forallb (fun d => negb (is_nan d)) ds = true ->
  in_range 0.1 5 (Draft.zoomLevel s) = true ->
  Forall (fun s' => in_range 0.1 5 (Draft.zoomLevel s') = true)
         (Draft.states s ds).
Proof.
  induction ds as [|d ds IH]; intros s Hwf Hz; simpl.
  - constructor; [exact Hz | constructor].
  - simpl in Hwf. apply andb_true_iff in Hwf. destruct Hwf as [Hd Hrest].
    constructor; [exact Hz|].
    apply IH; [exact Hrest|]. unfold Draft.step. simpl.
    apply wheel_step_in_range; try reflexivity; trivial.
    now destruct (is_nan d).
Qed.

(** C2: starting from the default zoom level 1, after every event of any
    sequence of events (wheel events with any numeric [deltaY], key presses,
    the space reset, and all others) the zoom level lies in [0.3, 8] in the
    refined component and, after every wheel event, in [0.1, 5] in the
    earlier draft. *)
Theorem zoom_always_clamped (evs : list Refined.Event) (ds : list float) :
  forallb Refined.well_formed evs = true ->
  forallb (fun d => negb (is_nan d)) ds = true ->
  Refined.zoomLevel Refined.initial = 1 /\
  Forall (fun s => in_range 0.3 8 (Refined.zoomLevel s) = true)
         (Refined.states Refined.initial evs) /\
  Draft.zoomLevel Draft.initial = 1 /\
  Forall (fun s => in_range 0.1 5 (Draft.zoomLevel s) = true)
         (Draft.states Draft.initial ds).
Proof.
  intros Hevs Hds. repeat split.
  - now apply Refined_states_zoom_in_range.
  - now apply Draft_states_zoom_in_range.
Qed.

Lemma zoom_always_clamped_witness :
  Forall (fun s => in_range 0.3 8 (Refined.zoomLevel s) = true)
         (Refined.states Refined.initial
            [Refined.Wheel 100000; Refined.Wheel (-7.5); Refined.KeyDown " ";
             Refined.Wheel neg_infinity; Refined.KeyDown "w"; Refined.Wheel infinity]) /\
  Forall (fun s => in_range 0.1 5 (Draft.zoomLevel s) = true)
         (Draft.states Draft.initial [-100000; 3; infinity]).
Proof.
  pose proof (zoom_always_clamped
    [Refined.Wheel 100000; Refined.Wheel (-7.5); Refined.KeyDown " ";
     Refined.Wheel neg_infinity; Refined.KeyDown "w"; Refined.Wheel infinity]
    [-100000; 3; infinity] eq_refl eq_refl) as H.
  split; [apply H | apply H].
Defined.

(** C3: a wheel event with vertical delta [deltaY] suppresses the default
    action and replaces the zoom level by the previous zoom level minus
    [deltaY] times the zoom speed, clamped: speed 0.002 and range [0.3, 8] in
    the refined component, speed 0.001 and range [0.1, 5] in the draft. *)
Theorem wheel_adjusts_zoom (deltaY : float) (s : Refined.State) (d : Draft.State) :
  fst (Refined.handleWheel deltaY s) = [PreventDefault] /\
  Refined.zoomLevel (snd (Refined.handleWheel deltaY s))
    = clamp 0.3 8 (Refined.zoomLevel s - deltaY * 0.002) /\
  fst (Draft.handleWheel deltaY d) = [PreventDefault] /\
  Draft.zoomLevel (snd (Draft.handleWheel deltaY d))
    = clamp 0.1 5 (Draft.zoomLevel d - deltaY * 0.001).
Proof.
  repeat split; simpl; now apply Math_max_min_clamp.
Qed.

(* ================================================================= *)
(** ** Dragging *)

Lemma handleMouseMove_dragging s cx cy :
  Refined.isDragging s = true ->
  let s' := Refined.step s (Refined.MouseMove cx cy) in
  Refined.isDragging s' = true /\
  Refined.dragStart s' = Refined.dragStart s /\
  Refined.panOffset s'
    = vec2 ((cx - x (Refined.dragStart s)) * 0.05)
           (- (cy - y (Refined.dragStart s)) * 0.05).
Proof.
  intros Hd. unfold Refined.step. simpl. unfold Refined.handleMouseMove.
  rewrite Hd. simpl. auto.
Qed.

(** Moves made while dragging leave the drag flag and the drag origin alone. *)
Lemma moves_keep_drag_origin moves : forall s,
  Refined.isDragging s = true ->
  let s' := Refined.run s (map (fun q => Refined.MouseMove (fst q) (snd q)) moves) in
  Refined.isDragging s' = true /\ Refined.dragStart s' = Refined.dragStart s.
Proof.
  induction moves as [|[qx qy] moves IH]; intros s Hd; simpl.
  - auto.
  - destruct (handleMouseMove_dragging s qx qy Hd) as (Hd' & Hs' & _).
    destruct (IH _ Hd') as [H1 H2]. split; [exact H1|].
    simpl in H2. rewrite H2. exact Hs'.
Qed.

(** C1: after a pointer-down at P and any pointer-moves that end at Q, the
    pan offset is ((Qx - Px) * 0.05, -(Qy - Py) * 0.05): it is computed from
    the point of the pointer-down, which the moves do not replace; a
    pointer-up then sets the pan offset to (0, 0) at once and ends the drag. *)
Theorem drag_pans_from_origin (s : Refined.State) (px py : float)
    (moves : list (float * float)) (qx qy : float) :
  let down := Refined.step s (Refined.MouseDown px py) in
  let moved :=
    Refined.run down
      (map (fun q => Refined.MouseMove (fst q) (snd q)) moves
       ++ [Refined.MouseMove qx qy]) in
  let up := Refined.step moved Refined.MouseUp in
  Refined.isDragging moved = true /\
  Refined.dragStart moved = vec2 px py /\
  Refined.panOffset moved = vec2 ((qx - px) * 0.05) (- (qy - py) * 0.05) /\
  Refined.panOffset up = vec2 0 0 /\
  Refined.isDragging up = false.
Proof.
  intros down moved up.
  assert (Hdown : Refined.isDragging down = true) by reflexivity.
  destruct (moves_keep_drag_origin moves down Hdown) as [Hd Hs].
  simpl in Hd, Hs.
  unfold moved, Refined.run. rewrite fold_left_app. simpl.
  fold (Refined.run down (map (fun q => Refined.MouseMove (fst q) (snd q)) moves)).
  destruct (handleMouseMove_dragging _ qx qy Hd) as (H1 & H2 & H3).
  simpl in H1, H2, H3. rewrite Hs in H2, H3.
  repeat split; assumption.
Qed.

(* ================================================================= *)
(** ** The space key *)

(** C4: whatever the state, a space key event sets the target camera position
    to (0, 0, 35) and the zoom level to 1, and suppresses the default action
    of the key; the other state cells keep their values. *)
Theorem space_resets_view (s : Refined.State) :
  let r := Refined.handleKeyDown " " s in
  fst r = [PreventDefault] /\
  Refined.targetPosition (snd r) = arr3 0 0 35 /\
  Refined.zoomLevel (snd r) = 1 /\
  Refined.panOffset (snd r) = Refined.panOffset s /\
  Refined.scrollProgress (snd r) = Refined.scrollProgress s /\
  Refined.isDragging (snd r) = Refined.isDragging s /\
  Refined.dragStart (snd r) = Refined.dragStart s /\
  Refined.canvasError (snd r) = Refined.canvasError s.
Proof.
  repeat split.
Qed.

(* ================================================================= *)
(** ** Image planes *)

(** Multiplying by one changes nothing, so the idle target of the scale is the
    nominal scale itself. *)
Lemma digits2_pos_shift52 m :
  Zpos (digits2_pos (4503599627370496 * m)) = (Zpos (digits2_pos m) + 52)%Z.
Proof.
  cbn [Pos.mul digits2_pos]. rewrite !Pos2Z.inj_succ. lia.
Qed.

Lemma SFmul_one_r s m e :
  valid_binary (S754_finite s m e) = true ->
  SFmul prec emax (S754_finite s m e) (Prim2SF 1) = S754_finite s m e.
Proof.
  intros Hv. change (Prim2SF 1) with (S754_finite false 4503599627370496 (-52)).
  simpl in Hv. unfold bounded, canonical_mantissa in Hv.
  apply andb_true_iff in Hv. destruct Hv as [Hc Hb].
  apply Z.eqb_eq in Hc.
  unfold SFmul. rewrite xorb_false_r.
  rewrite (Pos.mul_comm m).
  unfold binary_round_aux, shr_fexp.
  unfold Zdigits2 at 1. rewrite digits2_pos_shift52.
  replace (Z.pos (digits2_pos m) + 52 + (e + -52))%Z
    with (Z.pos (digits2_pos m) + e)%Z by lia.
  rewrite Hc.
  replace (e - (e + -52))%Z with 52%Z by lia.
  cbn [shr shr_record_of_loc SpecFloat.iter_pos shr_1 Pos.mul shr_m shr_r shr_s orb
       loc_of_shr_record round_nearest_even Zdigits2].
  replace (e + -52 + 52)%Z with e by lia.
  rewrite Hc, Z.sub_diag. cbn [shr shr_m]. now rewrite Hb.
Qed.

Lemma mul_one_r a : a * 1 = a.
Proof.
  apply Prim2SF_inj. rewrite FloatAxioms.mul_spec.
  pose proof (Prim2SF_valid a) as Hv. unfold SF64mul.
  destruct (Prim2SF a) as [s|s| |s m e].
  - change (Prim2SF 1) with (S754_finite false 4503599627370496 (-52)).
    simpl. now rewrite xorb_false_r.
  - change (Prim2SF 1) with (S754_finite false 4503599627370496 (-52)).
    simpl. now rewrite xorb_false_r.
  - reflexivity.
  - now apply SFmul_one_r.
Qed.






(** C10: when a plane is hovered and pressed at once (a pointer-over followed
    by a pointer-down brings it there), the scale is eased toward the hover
    value, nominal times 1.1; the pressed value, nominal times 0.95, is the
    target only of a plane that is pressed and not hovered. *)
Theorem hover_beats_press (p : Refined.ImagePlaneProps) (e : bool) :
  let both := {| Refined.hovered := true; Refined.clicked := true;
                 Refined.imageError := e |} in
  let pressed := {| Refined.hovered := false; Refined.clicked := true;
                    Refined.imageError := e |} in
  Refined.ImagePlane_run p Refined.ImagePlane_initial
    [Refined.PointerOver; Refined.PointerDown]
    = {| Refined.hovered := true; Refined.clicked := true;
         Refined.imageError := false |} /\
  Refined.targetScale both = 1.1 /\
  Refined.scaleTarget p both
    = arr3 (at0 (Refined.scale p) * 1.1) (at1 (Refined.scale p) * 1.1)
           (at2 (Refined.scale p)) /\
  Refined.targetScale pressed = 0.95 /\
  Refined.scaleTarget p pressed
    = arr3 (at0 (Refined.scale p) * 0.95) (at1 (Refined.scale p) * 0.95)
           (at2 (Refined.scale p)).
Proof.
  repeat split.
Qed.

(** The gap to the target shrinks by the factor 9/10 with every frame. *)
Lemma lerp_exact_gap (c t : Q) :
  (t - lerp_exact c t (1 # 10) == (9 # 10) * (t - c))%Q.
Proof. unfold lerp_exact. ring. Qed.

Lemma lerp_exact_gap_iterated (c t : Q) (n : nat) :
  (t - iterate (fun v => lerp_exact v t (1 # 10)) n c
   == iterate (Qmult (9 # 10)) n (t - c))%Q.
Proof.
  induction n as [|n IH]; simpl.
  - reflexivity.
  - rewrite lerp_exact_gap, IH. reflexivity.
Qed.

Lemma lerp_exact_fixpoint (c t : Q) :
  (lerp_exact c t (1 # 10) == t)%Q <-> (c == t)%Q.
Proof.
  split; intros H.
  - assert (G : ((9 # 10) * (t - c) == 0)%Q).
    { rewrite <- lerp_exact_gap, H. ring. }
    apply Qmult_integral in G. destruct G as [G|G]; [discriminate|].
    rewrite <- (Qplus_0_r c), <- G. ring.
  - unfold lerp_exact. rewrite H. ring.
Qed.

(** C8: on every frame the displayed scale of a mounted plane is moved by
    linear interpolation with blend factor 0.1 toward its target, which is the
    nominal width and height times 1.1 when hovered, times 0.95 when pressed
    and not hovered, and the nominal scale otherwise.  Read without rounding,
    each frame leaves 9/10 of the gap to the target, so a scale that differs
    from its target is never put on it in one frame; in doubles, the first
    hovered frame of a plane of nominal scale (4, 2, 1) gives (4.04, 2.02, 1),
    not the target (4.4, 2.2, 1). *)
Theorem scale_is_eased (Math_sin Math_cos : float -> float)
    (p : Refined.ImagePlaneProps) (fo : Refined.FloatOffset)
    (s : Refined.ImagePlaneState) (time : float) (m : Refined.Object3D) :
  let target := Refined.scaleTarget p s in
  let idle e := {| Refined.hovered := false; Refined.clicked := false;
                   Refined.imageError := e |} in
  let over c e := {| Refined.hovered := true; Refined.clicked := c;
                     Refined.imageError := e |} in
  let down e := {| Refined.hovered := false; Refined.clicked := true;
                   Refined.imageError := e |} in
  option_map Refined.obj_scale
    (Refined.ImagePlane_useFrame Math_sin Math_cos p fo s time (Some m))
    = Some (arr3 (lerp (at0 (Refined.obj_scale m)) (at0 target) 0.1)
                 (lerp (at1 (Refined.obj_scale m)) (at1 target) 0.1)
                 (lerp (at2 (Refined.obj_scale m)) (at2 target) 0.1)) /\
  (forall c e, Refined.scaleTarget p (over c e)
     = arr3 (at0 (Refined.scale p) * 1.1) (at1 (Refined.scale p) * 1.1)
            (at2 (Refined.scale p))) /\
  (forall e, Refined.scaleTarget p (down e)
     = arr3 (at0 (Refined.scale p) * 0.95) (at1 (Refined.scale p) * 0.95)
            (at2 (Refined.scale p))) /\
  (forall e, Refined.scaleTarget p (idle e) = Refined.scale p) /\
  (forall (c t : Q) (n : nat),
     (t - iterate (fun v => lerp_exact v t (1 # 10)) n c
      == iterate (Qmult (9 # 10)) n (t - c))%Q) /\
  (forall c t : Q, (lerp_exact c t (1 # 10) == t)%Q <-> (c == t)%Q) /\
  (let p0 := {| Refined.url := ""; Refined.position := arr3 0 0 0;
                Refined.rotation := arr3 0 0 0; Refined.scale := arr3 4 2 1;
                Refined.index := 0; Refined.scrollOffset := 0 |} in
   let m0 := {| Refined.obj_position := arr3 0 0 0;
                Refined.obj_scale := arr3 4 2 1;
                Refined.obj_rotation := arr3 0 0 0 |} in
   option_map Refined.obj_scale
     (Refined.ImagePlane_useFrame Math_sin Math_cos p0 fo (over false false)
        time (Some m0))
     = Some (arr3 4.04 2.02 1) /\
   Refined.scaleTarget p0 (over false false) = arr3 4.4 2.2 1 /\
   arr3 4.04 2.02 1 <> arr3 4.4 2.2 1).
Proof.
  intros target idle over down. repeat split.
  - intros e. unfold idle, Refined.scaleTarget. simpl. rewrite !mul_one_r.
    now destruct (Refined.scale p).
  - apply lerp_exact_gap_iterated.
  - apply lerp_exact_fixpoint.
  - apply lerp_exact_fixpoint.
  - intros H. apply (f_equal (fun v => Prim2SF (at0 v))) in H.
    vm_compute in H. discriminate.
Qed.

(* ================================================================= *)
(** ** The camera *)

(** C6, as the code has it: in the refined component every frame moves the
    field of view by linear interpolation with blend factor 0.1 toward
    75 / zoomLevel, and each axis of the camera position, independently, by
    linear interpolation with blend factor 0.1 toward targetPosition.x +
    panOffset.x, targetPosition.y + panOffset.y and targetPosition.z, from the
    running position that the controller retains: a frame with other props
    continues from the position the previous frame left, which starts at
    (0, 0, 35).  The camera controller of the earlier draft does not
    interpolate: every frame it sets the field of view to 75 / zoomLevel and
    leaves the camera position alone. *)
Theorem camera_is_eased (p q : Refined.CameraControlsProps)
    (c : Refined.CameraControlsInstance) (z : float) (cam : Refined.Camera) :
  let toward (cur : Array3) (r : Refined.CameraControlsProps) :=
    arr3 (lerp (at0 cur)
               (at0 (Refined.cc_targetPosition r) + x (Refined.cc_panOffset r)) 0.1)
         (lerp (at1 cur)
               (at1 (Refined.cc_targetPosition r) + y (Refined.cc_panOffset r)) 0.1)
         (lerp (at2 cur) (at2 (Refined.cc_targetPosition r)) 0.1) in
  let c1 := Refined.CameraControls_useFrame p c in
  let c2 := Refined.CameraControls_useFrame q c1 in
  Refined.fov (Refined.camera c1)
    = lerp (Refined.fov (Refined.camera c)) (75 / Refined.cc_zoomLevel p) 0.1 /\
  Refined.currentPosition c1 = toward (Refined.currentPosition c) p /\
  Refined.cam_position (Refined.camera c1) = Refined.currentPosition c1 /\
  Refined.currentPosition c2 = toward (toward (Refined.currentPosition c) p) q /\
  Refined.currentPosition Refined.CameraControls_mount = arr3 0 0 35 /\
  Refined.fov (Refined.camera Refined.CameraControls_mount) = 75 /\
  Draft.CameraControls_useFrame z cam
    = {| Refined.fov := 75 / z; Refined.cam_position := Refined.cam_position cam |}.
Proof.
  repeat split.
Qed.

(** C6 fails for the draft: at zoom level 2 one frame takes the field of view
    from 75 to 37.5 at once, where interpolation with blend factor 0.1 gives
    71.25. *)
Lemma draft_camera_snaps :
  let cam := {| Refined.fov := 75; Refined.cam_position := arr3 0 0 35 |} in
  Refined.fov (Draft.CameraControls_useFrame 2 cam) = 37.5 /\
  lerp (Refined.fov cam) (75 / 2) 0.1 = 71.25 /\
  Refined.fov (Draft.CameraControls_useFrame 2 cam)
    <> lerp (Refined.fov cam) (75 / 2) 0.1.
Proof.
  repeat split.
  intros H. apply (f_equal Prim2SF) in H. vm_compute in H. discriminate.
Qed.

(* ================================================================= *)
(** ** Scroll progress *)

Lemma scrollProgress_kept s ev :
  match ev with
  | Refined.ScrollFrame (Some _) => True
  | _ => Refined.scrollProgress (Refined.step s ev) = Refined.scrollProgress s
  end.
Proof.
  destruct ev as [d|cx cy|cx cy| |k|[o|]|]; unfold Refined.step; simpl; trivial.
  - unfold Refined.handleMouseMove. now destruct (negb (Refined.isDragging s)).
  - unfold Refined.handleKeyDown.
    repeat match goal with
           | |- context [if ?b then _ else _] => destruct b
           end; reflexivity.
Qed.

(** C7, as the code has it: the scroll progress starts at 0, and a frame
    republishes the offset reported by the scroll framework unchanged (no
    event other than such a frame changes it), so the published progress, of
    which the indicator shows 100 times as a percentage, lies in [0, 1]
    exactly when the reported offset does. *)
Theorem scroll_progress_is_offset (s : Refined.State) (offset : float)
    (ev : Refined.Event) :
  let s' := Refined.step s (Refined.ScrollFrame (Some offset)) in
  Refined.scrollProgress Refined.initial = 0 /\
  Refined.scrollProgress s' = offset /\
  in_range 0 1 (Refined.scrollProgress s') = in_range 0 1 offset /\
  Refined.Moodboard3D s'
    = (if Refined.truthy (Refined.canvasError s)
       then Refined.ErrorView [LocationReload]
       else Refined.SceneView
              (if Refined.isDragging s then "grabbing" else "grab")
              (offset * 100)
              {| Refined.cc_zoomLevel := Refined.zoomLevel s;
                 Refined.cc_panOffset := Refined.panOffset s;
                 Refined.cc_targetPosition := Refined.targetPosition s |}) /\
  Refined.scrollProgress (Refined.step s (Refined.ScrollFrame None))
    = Refined.scrollProgress s /\
  match ev with
  | Refined.ScrollFrame (Some _) => True
  | _ => Refined.scrollProgress (Refined.step s ev) = Refined.scrollProgress s
  end.
Proof.
  repeat split. apply scrollProgress_kept.
Qed.

(** C7 fails when the framework reports an offset outside [0, 1]: the frame
    publishes it as it is, and the indicator shows it. *)
Lemma scroll_progress_not_clamped :
  let s' := Refined.step Refined.initial (Refined.ScrollFrame (Some (-0.25))) in
  Refined.scrollProgress s' = -0.25 /\
  in_range 0 1 (Refined.scrollProgress s') = false /\
  Refined.Moodboard3D s'
    = Refined.SceneView "grab" (-25)
        {| Refined.cc_zoomLevel := 1; Refined.cc_panOffset := vec2 0 0;
           Refined.cc_targetPosition := arr3 0 0 35 |}.
Proof.
  repeat split.
Qed.

(* ================================================================= *)
(** ** Failure of the rendering surface *)

Ltac split_key_cases :=
  unfold Refined.handleKeyDown;
  repeat match goal with
         | |- context [if ?b then _ else _] => destruct b
         end.

Lemma canvasError_kept s ev :
  Refined.is_failure ev = false ->
  Refined.canvasError (Refined.step s ev) = Refined.canvasError s.
Proof.
  destruct ev as [d|cx cy|cx cy| |k|[o|]|]; unfold Refined.step; simpl;
    trivial; try discriminate; intros _.
  - unfold Refined.handleMouseMove. now destruct (negb (Refined.isDragging s)).
  - split_key_cases; reflexivity.
Qed.

Lemma failure_sets_error s ev :
  Refined.is_failure ev = true ->
  Refined.truthy (Refined.canvasError (Refined.step s ev)) = true.
Proof.
  destruct ev; try discriminate; reflexivity.
Qed.

Lemma error_stays s ev :
  Refined.truthy (Refined.canvasError s) = true ->
  Refined.truthy (Refined.canvasError (Refined.step s ev)) = true.
Proof.
  intros H. destruct (Refined.is_failure ev) eqn:E.
  - now apply failure_sets_error.
  - now rewrite canvasError_kept.
Qed.

Lemma error_view_iff s :
  Refined.is_error_view (Refined.Moodboard3D s)
    = Refined.truthy (Refined.canvasError s).
Proof.
  unfold Refined.Moodboard3D. now destruct (Refined.truthy _).
Qed.

Lemma error_stays_run evs : forall s,
  Refined.truthy (Refined.canvasError s) = true ->
  Forall (fun s' => Refined.Moodboard3D s' = Refined.ErrorView [LocationReload])
         (Refined.states s evs).
Proof.
  induction evs as [|ev evs IH]; intros s H; simpl.
  - constructor; [|constructor]. unfold Refined.Moodboard3D. now rewrite H.
  - constructor; [unfold Refined.Moodboard3D; now rewrite H|].
    apply IH. now apply error_stays.
Qed.

Lemma error_views_head s evs :
  exists rest,
    Refined.error_views s evs = Refined.truthy (Refined.canvasError s) :: rest.
Proof.
  unfold Refined.error_views.
  destruct evs; simpl; rewrite error_view_iff; eauto.
Qed.

(** In the error view nothing is entered any more. *)
Lemma no_entry_after_error evs : forall s,
  Refined.truthy (Refined.canvasError s) = true ->
  Refined.entries_into_error (Refined.error_views s evs) = 0%nat.
Proof.
  induction evs as [|ev evs IH]; intros s H.
  - reflexivity.
  - pose proof (IH _ (error_stays s ev H)) as IH'.
    unfold Refined.error_views in *. simpl Refined.states. simpl map.
    destruct (map _ (Refined.states (Refined.step s ev) evs)) as [|b rest] eqn:E.
    + reflexivity.
    + change (Refined.entries_into_error
                (Refined.is_error_view (Refined.Moodboard3D s) :: b :: rest))
        with ((if negb (Refined.is_error_view (Refined.Moodboard3D s)) && b
               then 1 else 0) + Refined.entries_into_error (b :: rest))%nat.
      rewrite error_view_iff, H, IH'. reflexivity.
Qed.

(** From the scene, the error view is entered once if a failure occurs and not
    at all otherwise. *)
Lemma entries_count evs : forall s,
  Refined.truthy (Refined.canvasError s) = false ->
  Refined.entries_into_error (Refined.error_views s evs)
    = if existsb Refined.is_failure evs then 1%nat else 0%nat.
Proof.
  induction evs as [|ev evs IH]; intros s H.
  - reflexivity.
  - destruct (error_views_head (Refined.step s ev) evs) as [rest Hrest].
    unfold Refined.error_views in *. simpl Refined.states. simpl map.
    simpl existsb.
    destruct (Refined.is_failure ev) eqn:E.
    + pose proof (failure_sets_error s ev E) as Hf.
      pose proof (no_entry_after_error evs _ Hf) as Hn.
      unfold Refined.error_views in Hn.
      rewrite Hrest in *. rewrite Hf in *.
      change (Refined.entries_into_error
                (Refined.is_error_view (Refined.Moodboard3D s) :: true :: rest))
        with ((if negb (Refined.is_error_view (Refined.Moodboard3D s)) && true
               then 1 else 0) + Refined.entries_into_error (true :: rest))%nat.
      rewrite error_view_iff, H, Hn. reflexivity.
    + assert (Hk : Refined.truthy (Refined.canvasError (Refined.step s ev)) = false).
      { now rewrite canvasError_kept. }
      pose proof (IH _ Hk) as IH'.
      rewrite Hrest in *. rewrite Hk in *.
      change (Refined.entries_into_error
                (Refined.is_error_view (Refined.Moodboard3D s) :: false :: rest))
        with ((if negb (Refined.is_error_view (Refined.Moodboard3D s)) && false
               then 1 else 0) + Refined.entries_into_error (false :: rest))%nat.
      rewrite error_view_iff, H, IH'. reflexivity.
Qed.

Lemma no_handler_reloads ev s :
  existsb Refined.is_reload (fst (Refined.handle ev s)) = false.
Proof.
  destruct ev as [d|cx cy|cx cy| |k|[o|]|]; simpl; trivial.
  - unfold Refined.handleMouseMove. now destruct (negb (Refined.isDragging s)).
  - split_key_cases; reflexivity.
Qed.

(** The error cell only ever holds [null] or the message of the lost
    context: no event stores an error object, the handler that would is never
    run. *)
Lemma canvasError_values evs : forall s,
  (Refined.canvasError s = Refined.NoError \/
   Refined.canvasError s = Refined.ErrorMessage "WebGL context lost") ->
  Forall (fun s' => Refined.canvasError s' = Refined.NoError \/
                    Refined.canvasError s' = Refined.ErrorMessage "WebGL context lost")
         (Refined.states s evs).
Proof.
  induction evs as [|ev evs IH]; intros s H; simpl.
  - constructor; [exact H | constructor].
  - constructor; [exact H|]. apply IH.
    destruct (Refined.is_failure ev) eqn:E.
    + destruct ev; try discriminate. right. reflexivity.
    + now rewrite canvasError_kept.
Qed.

(** C9, where the code keeps it and where it does not.  A lost context is
    final: in any run of a mounted component in which the context is lost,
    whatever comes before and after, the error view is entered exactly once;
    from then on every state has the error set and renders the error view,
    whose only control is the button that reloads the page; and no handler
    reloads the page or clears the error by itself.  An initialization error
    gets nowhere: the handler written for it (lines 464-467) would bring the
    same error view from any state, but no event runs it, so in no state of
    any run does the error cell hold an error object. *)
Theorem context_loss_is_final (before after : list Refined.Event)
    (description : string) (s : Refined.State) :
  let failed := Refined.step (Refined.run Refined.initial before) Refined.ContextLost in
  Refined.entries_into_error
    (Refined.error_views Refined.initial (before ++ Refined.ContextLost :: after))
    = 1%nat /\
  Forall (fun s' => Refined.truthy (Refined.canvasError s') = true
                    /\ Refined.Moodboard3D s' = Refined.ErrorView [LocationReload])
         (Refined.states failed after) /\
  Forall (fun ev => forall s',
            existsb Refined.is_reload (fst (Refined.handle ev s')) = false)
         (before ++ Refined.ContextLost :: after) /\
  Forall (fun s' => Refined.canvasError s' = Refined.NoError \/
                    Refined.canvasError s' = Refined.ErrorMessage "WebGL context lost")
         (Refined.states Refined.initial (before ++ Refined.ContextLost :: after)) /\
  Refined.Moodboard3D (snd (Refined.Canvas_onError description s))
    = Refined.ErrorView [LocationReload].
Proof.
  intros failed. repeat split.
  - rewrite entries_count by reflexivity.
    rewrite existsb_app. simpl. now rewrite orb_true_r.
  - assert (H : Refined.truthy (Refined.canvasError failed) = true)
      by now apply failure_sets_error.
    pose proof (error_stays_run after failed H) as Hall.
    rewrite Forall_forall in *. intros s' Hin. split; [|now apply Hall].
    rewrite <- error_view_iff. now rewrite (Hall s' Hin).
  - apply Forall_forall. intros ev _ s'. apply no_handler_reloads.
  - apply canvasError_values. left. reflexivity.
Qed.

(* ================================================================= *)
(** ** Further properties of the root component *)

Lemma states_invariant (P : Refined.State -> Prop) :
  (forall s ev, P s -> P (Refined.step s ev)) ->
  forall evs s, P s -> Forall P (Refined.states s evs).
Proof.
  intros Hstep. induction evs as [|ev evs IH]; intros s Hs; simpl.
  - constructor; [exact Hs | constructor].
  - constructor; [exact Hs|]. apply IH, Hstep, Hs.
Qed.

(** X1: in every state a mounted root component goes through, whatever the
    events, the pan offset is (0, 0) whenever no drag is in progress. *)
Theorem no_pan_without_drag (evs : list Refined.Event) :
  Forall (fun s => Refined.isDragging s = false ->
                   Refined.panOffset s = vec2 0 0)
         (Refined.states Refined.initial evs).
Proof.
  apply states_invariant; [|reflexivity].
  intros s ev Hs.
  destruct ev as [d|cx cy|cx cy| |k|[o|]|]; unfold Refined.step; simpl;
    trivial.
  - discriminate.
  - unfold Refined.handleMouseMove.
    destruct (Refined.isDragging s) eqn:E; simpl;
      [rewrite E; discriminate | intros _; now apply Hs].
  - split_key_cases; simpl; exact Hs.
Qed.

(** X2: no event moves the camera target in depth: in every state a mounted
    root component goes through, the third coordinate of the target position
    is 35. *)
Theorem target_depth_is_fixed (evs : list Refined.Event) :
  Forall (fun s => at2 (Refined.targetPosition s) = 35)
         (Refined.states Refined.initial evs).
Proof.
  apply states_invariant; [|reflexivity].
  intros s ev Hs.
  destruct ev as [d|cx cy|cx cy| |k|[o|]|]; unfold Refined.step; simpl;
    trivial.
  - unfold Refined.handleMouseMove. now destruct (negb (Refined.isDragging s)).
  - split_key_cases; simpl; trivial.
Qed.

Lemma existsb_eqb_false key keys :
  existsb (String.eqb key) keys = false ->
  Forall (fun k => String.eqb key k = false) keys.
Proof.
  induction keys as [|k keys IH]; simpl; intros H; constructor.
  - now destruct (String.eqb key k).
  - apply IH. now destruct (String.eqb key k).
Qed.

(** X3: a key that is none of the nine handled ones (matching is exact, so
    ["W"] is none of them) changes nothing and performs no effect; and of all
    keys only the space key has its default action suppressed. *)
Theorem unhandled_keys_are_ignored (key : string) (s : Refined.State) :
  existsb (String.eqb key) Refined.handled_keys = false ->
  Refined.handleKeyDown key s = ([], s) /\
  (forall k s', fst (Refined.handleKeyDown k s')
                = if String.eqb k " " then [PreventDefault] else []).
Proof.
  intros H. split.
  - apply existsb_eqb_false in H. unfold Refined.handled_keys in H.
    repeat match goal with
           | H : Forall _ (_ :: _) |- _ => inversion H; subst; clear H
           end.
    unfold Refined.handleKeyDown.
    repeat match goal with
           | H : String.eqb key _ = false |- _ => rewrite H; clear H
           end.
    reflexivity.
  - intros k s'. unfold Refined.handleKeyDown.
    repeat match goal with
           | |- context [String.eqb k ?c] =>
               destruct (String.eqb_spec k c); [subst k; reflexivity|]
           end.
    reflexivity.
Qed.

Lemma unhandled_keys_are_ignored_witness :
  Refined.handleKeyDown "W" Refined.initial = ([], Refined.initial).
Proof.
  apply (unhandled_keys_are_ignored "W" Refined.initial eq_refl).
Defined.

(** A cell of the state that only the events of one kind write, and which
    they write from its own value alone, is driven by those events: dropping
    all other events from a run does not change it. *)
Section Projection.
Context {A : Type}.
Variable cell : Refined.State -> A.
Variable writes : Refined.Event -> bool.
Hypothesis others_keep : forall s ev,
  writes ev = false -> cell (Refined.step s ev) = cell s.
Hypothesis writers_agree : forall s s' ev,
  writes ev = true -> cell s = cell s' ->
  cell (Refined.step s ev) = cell (Refined.step s' ev).

Lemma run_filter evs : forall s s',
  cell s = cell s' ->
  cell (Refined.run s evs) = cell (Refined.run s' (filter writes evs)).
Proof.
  induction evs as [|ev evs IH]; intros s s' H; simpl.
  - exact H.
  - destruct (writes ev) eqn:E; simpl.
    + apply IH. now apply writers_agree.
    + apply IH. now rewrite others_keep.
Qed.
End Projection.

Lemma zoom_of_filtered_run s evs :
  Refined.zoomLevel (Refined.run s evs)
  = Refined.zoomLevel (Refined.run s (filter Refined.is_wheel_or_space evs)).
Proof.
  apply run_filter; [| |reflexivity].
  - intros s0 ev H.
    destruct ev as [d|cx cy|cx cy| |k|[o|]|]; try discriminate;
      unfold Refined.step; simpl; trivial.
    + unfold Refined.handleMouseMove. now destruct (negb (Refined.isDragging s0)).
    + simpl in H. unfold Refined.handleKeyDown. rewrite H.
      repeat match goal with
             | |- context [if ?b then _ else _] => destruct b
             end; reflexivity.
  - intros s0 s1 ev H Hz.
    destruct ev as [d|cx cy|cx cy| |k|[o|]|]; try discriminate;
      unfold Refined.step; simpl.
    + now rewrite Hz.
    + simpl in H. apply String.eqb_eq in H. subst k. reflexivity.
Qed.

Lemma drag_of_filtered_run s evs :
  let drag s' := (Refined.isDragging s', Refined.dragStart s', Refined.panOffset s') in
  drag (Refined.run s evs) = drag (Refined.run s (filter Refined.is_mouse evs)).
Proof.
  intros drag. apply (run_filter drag Refined.is_mouse); [| |reflexivity].
  - intros s0 ev H.
    destruct ev as [d|cx cy|cx cy| |k|[o|]|]; try discriminate;
      unfold Refined.step, drag; simpl; trivial.
    split_key_cases; reflexivity.
  - intros s0 s1 ev H Hd. unfold drag in *.
    injection Hd as H1 H2 H3.
    destruct ev as [d|cx cy|cx cy| |k|[o|]|]; try discriminate;
      unfold Refined.step; simpl.
    + congruence.
    + unfold Refined.handleMouseMove. rewrite H1, H2.
      destruct (Refined.isDragging s1) eqn:E; simpl; congruence.
    + congruence.
Qed.

Lemma target_of_filtered_run s evs :
  Refined.targetPosition (Refined.run s evs)
  = Refined.targetPosition (Refined.run s (filter Refined.is_key evs)).
Proof.
  apply run_filter; [| |reflexivity].
  - intros s0 ev H.
    destruct ev as [d|cx cy|cx cy| |k|[o|]|]; try discriminate;
      unfold Refined.step; simpl; trivial.
    unfold Refined.handleMouseMove. now destruct (negb (Refined.isDragging s0)).
  - intros s0 s1 ev H Ht.
    destruct ev as [d|cx cy|cx cy| |k|[o|]|]; try discriminate.
    unfold Refined.step. simpl. split_key_cases; simpl; congruence.
Qed.

(** A run in which the rendering surface does not fail, begun in the scene,
    stays in the scene: the container is there, the listeners are registered
    at every render, and every event is handled. *)
Lemma scene_is_kept evs : forall s,
  Refined.truthy (Refined.canvasError s) = false ->
  existsb Refined.is_failure evs = false ->
  Forall (fun s' => Refined.is_error_view (Refined.Moodboard3D s') = false)
         (Refined.states s evs).
Proof.
  induction evs as [|ev evs IH]; intros s Hs Hevs; simpl.
  - constructor; [now rewrite error_view_iff | constructor].
  - simpl in Hevs. apply orb_false_iff in Hevs. destruct Hevs as [Hev Hevs].
    constructor; [now rewrite error_view_iff|].
    apply IH; [|exact Hevs]. now rewrite canvasError_kept.
Qed.

Lemma filter_without_failure f evs :
  existsb Refined.is_failure evs = false ->
  existsb Refined.is_failure (filter f evs) = false.
Proof.
  induction evs as [|ev evs IH]; simpl; intros H; [reflexivity|].
  apply orb_false_iff in H. destruct H as [H1 H2].
  destruct (f ev); simpl; [rewrite H1|]; now apply IH.
Qed.

(** X4: as long as the rendering surface has not failed, the zoom level is
    decided by the wheel events and space presses alone.  For a run that
    starts in the scene and has no lost context, dropping the mouse events,
    the other keys and the scroll frames changes nothing in the zoom level it
    ends with; both runs stay in the scene throughout. *)
Theorem zoom_is_driven_by_wheel_and_space (s : Refined.State)
    (evs : list Refined.Event) :
  Refined.truthy (Refined.canvasError s) = false ->
  existsb Refined.is_failure evs = false ->
  let kept := filter Refined.is_wheel_or_space evs in
  Refined.zoomLevel (Refined.run s evs) = Refined.zoomLevel (Refined.run s kept) /\
  Forall (fun s' => Refined.is_error_view (Refined.Moodboard3D s') = false)
         (Refined.states s evs) /\
  Forall (fun s' => Refined.is_error_view (Refined.Moodboard3D s') = false)
         (Refined.states s kept).
Proof.
  intros Hs Hevs kept. repeat split.
  - apply zoom_of_filtered_run.
  - now apply scene_is_kept.
  - apply scene_is_kept; [exact Hs | now apply filter_without_failure].
Qed.

Lemma zoom_is_driven_by_wheel_and_space_witness :
  Refined.zoomLevel
    (Refined.run Refined.initial
       [Refined.Wheel (-500); Refined.MouseDown 1 2; Refined.KeyDown "w";
        Refined.MouseUp; Refined.Wheel 100])
  = Refined.zoomLevel
      (Refined.run Refined.initial [Refined.Wheel (-500); Refined.Wheel 100]).
Proof.
  apply (zoom_is_driven_by_wheel_and_space Refined.initial
           [Refined.Wheel (-500); Refined.MouseDown 1 2; Refined.KeyDown "w";
            Refined.MouseUp; Refined.Wheel 100] eq_refl eq_refl).
Defined.

(** X5: as long as the rendering surface has not failed, the drag flag, the
    drag origin and the pan offset are decided by the mouse events alone.  For
    a run that starts in the scene and has no lost context, dropping the
    wheel events, the keys and the scroll frames changes none of the three;
    both runs stay in the scene throughout. *)
Theorem drag_is_driven_by_mouse (s : Refined.State) (evs : list Refined.Event) :
  Refined.truthy (Refined.canvasError s) = false ->
  existsb Refined.is_failure evs = false ->
  let kept := filter Refined.is_mouse evs in
  let drag s' := (Refined.isDragging s', Refined.dragStart s', Refined.panOffset s') in
  drag (Refined.run s evs) = drag (Refined.run s kept) /\
  Forall (fun s' => Refined.is_error_view (Refined.Moodboard3D s') = false)
         (Refined.states s evs) /\
  Forall (fun s' => Refined.is_error_view (Refined.Moodboard3D s') = false)
         (Refined.states s kept).
Proof.
  intros Hs Hevs kept drag. repeat split.
  - apply drag_of_filtered_run.
  - now apply scene_is_kept.
  - apply scene_is_kept; [exact Hs | now apply filter_without_failure].
Qed.

Lemma drag_is_driven_by_mouse_witness :
  Refined.panOffset
    (Refined.run Refined.initial
       [Refined.MouseDown 10 10; Refined.Wheel 100; Refined.KeyDown " ";
        Refined.MouseMove 30 50])
  = Refined.panOffset
      (Refined.run Refined.initial [Refined.MouseDown 10 10; Refined.MouseMove 30 50]).
Proof.
  exact (f_equal snd
           (proj1 (drag_is_driven_by_mouse Refined.initial
                     [Refined.MouseDown 10 10; Refined.Wheel 100; Refined.KeyDown " ";
                      Refined.MouseMove 30 50] eq_refl eq_refl))).
Defined.

(** X6: as long as the rendering surface has not failed, the target position
    is decided by the key events alone.  For a run that starts in the scene
    and has no lost context, dropping the wheel events, the mouse events and
    the scroll frames changes nothing in the target position it ends with;
    both runs stay in the scene throughout. *)
Theorem target_is_driven_by_keys (s : Refined.State) (evs : list Refined.Event) :
  Refined.truthy (Refined.canvasError s) = false ->
  existsb Refined.is_failure evs = false ->
  let kept := filter Refined.is_key evs in
  Refined.targetPosition (Refined.run s evs)
    = Refined.targetPosition (Refined.run s kept) /\
  Forall (fun s' => Refined.is_error_view (Refined.Moodboard3D s') = false)
         (Refined.states s evs) /\
  Forall (fun s' => Refined.is_error_view (Refined.Moodboard3D s') = false)
         (Refined.states s kept).
Proof.
  intros Hs Hevs kept. repeat split.
  - apply target_of_filtered_run.
  - now apply scene_is_kept.
  - apply scene_is_kept; [exact Hs | now apply filter_without_failure].
Qed.

Lemma target_is_driven_by_keys_witness :
  Refined.targetPosition
    (Refined.run Refined.initial
       [Refined.KeyDown "w"; Refined.Wheel 100; Refined.MouseDown 1 2;
        Refined.KeyDown "d"; Refined.MouseUp])
  = Refined.targetPosition
      (Refined.run Refined.initial [Refined.KeyDown "w"; Refined.KeyDown "d"]).
Proof.
  apply (target_is_driven_by_keys Refined.initial
           [Refined.KeyDown "w"; Refined.Wheel 100; Refined.MouseDown 1 2;
            Refined.KeyDown "d"; Refined.MouseUp] eq_refl eq_refl).
Defined.

Lemma scroll_progress_of_run evs : forall s,
  Refined.scrollProgress (Refined.run s evs)
  = Refined.last_offset (Refined.scrollProgress s) evs.
Proof.
  induction evs as [|ev evs IH]; intros s; simpl.
  - reflexivity.
  - rewrite IH. pose proof (scrollProgress_kept s ev) as H.
    destruct ev as [d|cx cy|cx cy| |k|[o|]|]; try now rewrite H.
    reflexivity.
Qed.

(** X7: at any moment the published scroll progress is the offset of the most
    recent frame in which the scroll framework was present, and 0 before the
    first such frame; nothing else is remembered of earlier frames. *)
Theorem scroll_progress_is_last_offset (evs : list Refined.Event) :
  Refined.scrollProgress (Refined.run Refined.initial evs)
  = Refined.last_offset 0 evs.
Proof.
  apply scroll_progress_of_run.
Qed.

(** X8: as long as the rendering surface does not fail, the scene is
    rendered: in a run without an initialization error and without a lost
    context no state shows the error view, and the error view is entered zero
    times. *)
Theorem scene_without_failure (evs : list Refined.Event) :
  existsb Refined.is_failure evs = false ->
  Forall (fun s => Refined.is_error_view (Refined.Moodboard3D s) = false)
         (Refined.states Refined.initial evs) /\
  Refined.entries_into_error (Refined.error_views Refined.initial evs) = 0%nat.
Proof.
  intros H. split.
  - assert (G : forall l s, existsb Refined.is_failure l = false ->
              Refined.truthy (Refined.canvasError s) = false ->
              Forall (fun s' => Refined.is_error_view (Refined.Moodboard3D s') = false)
                     (Refined.states s l)).
    { induction l as [|ev l IH]; intros s Hl Hs; simpl.
      - constructor; [now rewrite error_view_iff | constructor].
      - simpl in Hl. apply orb_false_iff in Hl. destruct Hl as [Hev Hl].
        constructor; [now rewrite error_view_iff|].
        apply IH; [exact Hl|]. now rewrite canvasError_kept. }
    now apply G.
  - rewrite entries_count by reflexivity. now rewrite H.
Qed.

Lemma scene_without_failure_witness :
  Forall (fun s => Refined.is_error_view (Refined.Moodboard3D s) = false)
         (Refined.states Refined.initial
            [Refined.Wheel 50; Refined.KeyDown "a"; Refined.ScrollFrame (Some 0.5)]).
Proof.
  apply (scene_without_failure
           [Refined.Wheel 50; Refined.KeyDown "a"; Refined.ScrollFrame (Some 0.5)]
           eq_refl).
Defined.

(* ================================================================= *)
(** ** NaN, zero and values at their target *)

Lemma Prim2SF_nan : Prim2SF nan = S754_nan.
Proof. reflexivity. Qed.

Lemma sub_nan_l b : nan - b = nan.
Proof.
  apply Prim2SF_inj. rewrite FloatAxioms.sub_spec, Prim2SF_nan. reflexivity.
Qed.

Lemma sub_nan_r a : a - nan = nan.
Proof.
  apply Prim2SF_inj. rewrite FloatAxioms.sub_spec, Prim2SF_nan.
  now destruct (Prim2SF a).
Qed.

Lemma add_nan_l b : nan + b = nan.
Proof.
  apply Prim2SF_inj. rewrite FloatAxioms.add_spec, Prim2SF_nan. reflexivity.
Qed.

Lemma add_nan_r a : a + nan = nan.
Proof.
  apply Prim2SF_inj. rewrite FloatAxioms.add_spec, Prim2SF_nan.
  now destruct (Prim2SF a).
Qed.

Lemma mul_nan_l b : nan * b = nan.
Proof.
  apply Prim2SF_inj. rewrite FloatAxioms.mul_spec, Prim2SF_nan. reflexivity.
Qed.

Lemma div_nan_r a : a / nan = nan.
Proof.
  apply Prim2SF_inj. rewrite FloatAxioms.div_spec, Prim2SF_nan.
  now destruct (Prim2SF a).
Qed.

Lemma sub_self a : at_rest a = true -> a - a = 0.
Proof.
  unfold at_rest. intros H. apply Prim2SF_inj. rewrite FloatAxioms.sub_spec.
  change (Prim2SF 0) with (S754_zero false).
  destruct (Prim2SF a) as [[]|?| |s m e]; try discriminate; try reflexivity.
  unfold SF64sub, SFsub.
  match goal with
  | |- binary_normalize _ _ ?z _ _ = _ => replace z with 0%Z by lia
  end.
  reflexivity.
Qed.

Lemma add_zero_r a : at_rest a = true -> a + 0 = a.
Proof.
  unfold at_rest. intros H. apply Prim2SF_inj. rewrite FloatAxioms.add_spec.
  change (Prim2SF 0) with (S754_zero false).
  destruct (Prim2SF a) as [[]|?| |s m e]; try discriminate; reflexivity.
Qed.

Lemma sub_zero_r a : nonzero_finite a = true -> a - 0 = a /\ a - (-0) = a.
Proof.
  unfold nonzero_finite. intros H.
  split; apply Prim2SF_inj; rewrite FloatAxioms.sub_spec.
  - change (Prim2SF 0) with (S754_zero false).
    destruct (Prim2SF a) as [[]|?| |s m e]; try discriminate; reflexivity.
  - change (Prim2SF (-0)) with (S754_zero true).
    destruct (Prim2SF a) as [[]|?| |s m e]; try discriminate; reflexivity.
Qed.

(** A value on its target is left there by the interpolation. *)
Lemma lerp_at_target a : at_rest a = true -> lerp a a 0.1 = a.
Proof.
  intros H. unfold lerp. rewrite (sub_self a H).
  change (0 * 0.1) with 0. now apply add_zero_r.
Qed.

Lemma lerp_nan_start e f : lerp nan e f = nan.
Proof. unfold lerp. apply add_nan_l. Qed.

Lemma lerp_nan_end a f : lerp a nan f = nan.
Proof. unfold lerp. now rewrite sub_nan_l, mul_nan_l, add_nan_r. Qed.

Lemma clamp_of_nan lo hi : Math_max lo (Math_min nan hi) = nan.
Proof.
  unfold Math_min. simpl. unfold Math_max.
  change (is_nan nan) with true. now rewrite orb_true_r.
Qed.

Lemma wheel_keeps_nan s d :
  Refined.zoomLevel s = nan ->
  Refined.zoomLevel (Refined.step s (Refined.Wheel d)) = nan.
Proof.
  intros H. unfold Refined.step. simpl. rewrite H, sub_nan_l. apply clamp_of_nan.
Qed.

Lemma wheels_keep_nan ds : forall s,
  Refined.zoomLevel s = nan ->
  Forall (fun s' => Refined.zoomLevel s' = nan)
         (Refined.states s (map Refined.Wheel ds)).
Proof.
  induction ds as [|d ds IH]; intros s H; simpl.
  - constructor; [exact H | constructor].
  - constructor; [exact H|]. apply IH. now apply wheel_keeps_nan.
Qed.

Lemma draft_wheels_keep_nan ds : forall s,
  Draft.zoomLevel s = nan ->
  Forall (fun s' => Draft.zoomLevel s' = nan) (Draft.states s ds).
Proof.
  induction ds as [|d ds IH]; intros s H; simpl.
  - constructor; [exact H | constructor].
  - constructor; [exact H|]. apply IH.
    unfold Draft.step. simpl. rewrite H, sub_nan_l. apply clamp_of_nan.
Qed.

(** X9: the clamp of the wheel handlers does not filter NaN.  A wheel event
    whose [deltaY] is NaN makes the zoom level NaN whatever it was, and no
    later wheel event brings it back to a number; in the refined component the
    space key still resets it to 1, the draft has no such way back. *)
Theorem nan_zoom_sticks (s : Refined.State) (d : Draft.State) (ds : list float) :
  let bad := Refined.step s (Refined.Wheel nan) in
  Forall (fun s' => Refined.zoomLevel s' = nan)
         (Refined.states bad (map Refined.Wheel ds)) /\
  Refined.zoomLevel
    (Refined.step (Refined.run bad (map Refined.Wheel ds)) (Refined.KeyDown " "))
    = 1 /\
  Forall (fun s' => Draft.zoomLevel s' = nan)
         (Draft.states (Draft.step d nan) ds).
Proof.
  intros bad. repeat split.
  - apply wheels_keep_nan. unfold bad, Refined.step. simpl.
    change (nan * 0.002) with nan. rewrite sub_nan_r. apply clamp_of_nan.
  - apply draft_wheels_keep_nan. unfold Draft.step. simpl.
    change (nan * 0.001) with nan. rewrite sub_nan_r. apply clamp_of_nan.
Qed.

Lemma camera_keeps_nan_fov ps : forall c,
  Refined.fov (Refined.camera c) = nan ->
  Refined.fov (Refined.camera (Refined.CameraControls_run c ps)) = nan.
Proof.
  induction ps as [|p ps IH]; intros c H; simpl.
  - exact H.
  - apply IH. simpl. rewrite H. apply lerp_nan_start.
Qed.

(** X10: one frame rendered while the zoom level is NaN makes the field of
    view NaN, and the camera never recovers: whatever zoom levels, pan offsets
    and targets the later frames are given (a zoom level reset by the space
    key included), the field of view stays NaN. *)
Theorem nan_fov_is_permanent (c : Refined.CameraControlsInstance)
    (p : Refined.CameraControlsProps) (later : list Refined.CameraControlsProps) :
  Refined.cc_zoomLevel p = nan ->
  Refined.fov (Refined.camera
    (Refined.CameraControls_run (Refined.CameraControls_useFrame p c) later)) = nan.
Proof.
  intros H. apply camera_keeps_nan_fov. simpl.
  rewrite H, div_nan_r. apply lerp_nan_end.
Qed.

Lemma nan_fov_is_permanent_witness :
  Refined.fov (Refined.camera
    (Refined.CameraControls_run
       (Refined.CameraControls_useFrame
          {| Refined.cc_zoomLevel := nan; Refined.cc_panOffset := vec2 0 0;
             Refined.cc_targetPosition := arr3 0 0 35 |}
          Refined.CameraControls_mount)
       [{| Refined.cc_zoomLevel := 1; Refined.cc_panOffset := vec2 0 0;
           Refined.cc_targetPosition := arr3 0 0 35 |}])) = nan.
Proof.
  apply (nan_fov_is_permanent Refined.CameraControls_mount
           {| Refined.cc_zoomLevel := nan; Refined.cc_panOffset := vec2 0 0;
              Refined.cc_targetPosition := arr3 0 0 35 |}
           [{| Refined.cc_zoomLevel := 1; Refined.cc_panOffset := vec2 0 0;
               Refined.cc_targetPosition := arr3 0 0 35 |}] eq_refl).
Defined.

(** X11: a camera that has reached what its props ask for stays there.  When
    the field of view is 75 / zoomLevel, the running position is the target
    position plus the pan offset, the camera is at the running position, and
    these numbers are finite and not the negative zero, then frames with these
    props, however many, change neither the camera nor the running position. *)
Theorem camera_rests_at_target (p : Refined.CameraControlsProps)
    (c : Refined.CameraControlsInstance) (n : nat) :
  let goal :=
    arr3 (at0 (Refined.cc_targetPosition p) + x (Refined.cc_panOffset p))
         (at1 (Refined.cc_targetPosition p) + y (Refined.cc_panOffset p))
         (at2 (Refined.cc_targetPosition p)) in
  Refined.fov (Refined.camera c) = 75 / Refined.cc_zoomLevel p ->
  Refined.currentPosition c = goal ->
  Refined.cam_position (Refined.camera c) = goal ->
  at_rest (75 / Refined.cc_zoomLevel p) = true ->
  at_rest (at0 goal) = true -> at_rest (at1 goal) = true ->
  at_rest (at2 goal) = true ->
  Refined.CameraControls_run c (repeat p n) = c.
Proof.
  intros goal Hf Hc Hp Rf R0 R1 R2.
  assert (Hone : Refined.CameraControls_useFrame p c = c).
  { destruct c as [[f pos] cur]. simpl in *. subst f pos cur.
    unfold Refined.CameraControls_useFrame. simpl.
    rewrite (lerp_at_target _ Rf), (lerp_at_target _ R0),
            (lerp_at_target _ R1), (lerp_at_target _ R2).
    reflexivity. }
  induction n as [|n IH]; simpl.
  - reflexivity.
  - rewrite Hone. exact IH.
Qed.

Lemma camera_rests_at_target_witness :
  Refined.CameraControls_run Refined.CameraControls_mount
    (repeat {| Refined.cc_zoomLevel := 1; Refined.cc_panOffset := vec2 0 0;
               Refined.cc_targetPosition := arr3 0 0 35 |} 3)
  = Refined.CameraControls_mount.
Proof.
  apply (camera_rests_at_target
           {| Refined.cc_zoomLevel := 1; Refined.cc_panOffset := vec2 0 0;
              Refined.cc_targetPosition := arr3 0 0 35 |}
           Refined.CameraControls_mount 3
           eq_refl eq_refl eq_refl eq_refl eq_refl eq_refl eq_refl).
Defined.

(** X12: a plane that is neither hovered nor pressed and whose displayed
    scale is its nominal scale keeps exactly that scale on every frame,
    provided the three numbers are finite and not the negative zero: rounding
    does not make an idle plane drift. *)
Theorem idle_plane_keeps_its_scale (Math_sin Math_cos : float -> float)
    (p : Refined.ImagePlaneProps) (fo : Refined.FloatOffset)
    (s : Refined.ImagePlaneState) (time : float) (m : Refined.Object3D) :
  Refined.hovered s = false -> Refined.clicked s = false ->
  Refined.obj_scale m = Refined.scale p ->
  at_rest (at0 (Refined.scale p)) = true ->
  at_rest (at1 (Refined.scale p)) = true ->
  at_rest (at2 (Refined.scale p)) = true ->
  option_map Refined.obj_scale
    (Refined.ImagePlane_useFrame Math_sin Math_cos p fo s time (Some m))
  = Some (Refined.scale p).
Proof.
  intros Hh Hc Hm R0 R1 R2. simpl. f_equal.
  unfold Vector3_lerp, Refined.scaleTarget, Refined.targetScale.
  rewrite Hh, Hc, Hm. simpl. rewrite !mul_one_r.
  fold (lerp (at0 (Refined.scale p)) (at0 (Refined.scale p)) 0.1).
  fold (lerp (at1 (Refined.scale p)) (at1 (Refined.scale p)) 0.1).
  fold (lerp (at2 (Refined.scale p)) (at2 (Refined.scale p)) 0.1).
  rewrite (lerp_at_target _ R0), (lerp_at_target _ R1), (lerp_at_target _ R2).
  now destruct (Refined.scale p).
Qed.

Lemma idle_plane_keeps_its_scale_witness :
  let p := {| Refined.url := ""; Refined.position := arr3 1 2 3;
              Refined.rotation := arr3 0 0 0; Refined.scale := arr3 4.5 3.7 1;
              Refined.index := 4; Refined.scrollOffset := 0.25 |} in
  option_map Refined.obj_scale
    (Refined.ImagePlane_useFrame (fun t => t) (fun t => t) p
       (Refined.floatOffset_of_draws 0.1 0.2 0.3 0.4 0.5)
       Refined.ImagePlane_initial 12.5
       (Some {| Refined.obj_position := arr3 1 2 3;
                Refined.obj_scale := arr3 4.5 3.7 1;
                Refined.obj_rotation := arr3 0 0 0 |}))
  = Some (arr3 4.5 3.7 1).
Proof.
  intros p.
  apply (idle_plane_keeps_its_scale (fun t => t) (fun t => t) p
           (Refined.floatOffset_of_draws 0.1 0.2 0.3 0.4 0.5)
           Refined.ImagePlane_initial 12.5
           {| Refined.obj_position := arr3 1 2 3;
              Refined.obj_scale := arr3 4.5 3.7 1;
              Refined.obj_rotation := arr3 0 0 0 |}
           eq_refl eq_refl eq_refl eq_refl eq_refl eq_refl).
Defined.

Lemma in_range_nonzero lo hi z :
  (0 <? lo) = true -> nonzero_finite hi = true ->
  in_range lo hi z = true -> nonzero_finite z = true.
Proof.
  unfold nonzero_finite, in_range.
  rewrite FloatAxioms.ltb_spec, !FloatAxioms.leb_spec.
  change (Prim2SF 0) with (S754_zero false). unfold SFltb, SFleb.
  destruct (Prim2SF hi) as [?|?| |sh mh eh]; try discriminate.
  destruct (Prim2SF lo) as [?|[]| |[] ml el]; try discriminate;
    destruct (Prim2SF z) as [?|[]| |sz mz ez]; simpl; try reflexivity;
    try discriminate; destruct sh; discriminate.
Qed.

(** X13: a wheel event without vertical movement (a [deltaY] of zero, of
    either sign, as a horizontal scroll gives) leaves a zoom level of the
    range exactly as it is, in both versions; the default action is suppressed
    all the same. *)
Theorem wheel_without_movement (s : Refined.State) (d : Draft.State) :
  in_range 0.3 8 (Refined.zoomLevel s) = true ->
  in_range 0.1 5 (Draft.zoomLevel d) = true ->
  Refined.handleWheel 0 s = ([PreventDefault], s) /\
  Refined.handleWheel (-0) s = ([PreventDefault], s) /\
  Draft.handleWheel 0 d = ([PreventDefault], d) /\
  Draft.handleWheel (-0) d = ([PreventDefault], d).
Proof.
  intros Hs Hd.
  pose proof (in_range_nonzero 0.3 8 _ eq_refl eq_refl Hs) as Ns.
  pose proof (in_range_nonzero 0.1 5 _ eq_refl eq_refl Hd) as Nd.
  destruct (sub_zero_r _ Ns) as [S0 S1]. destruct (sub_zero_r _ Nd) as [D0 D1].
  unfold Refined.handleWheel, Draft.handleWheel, Refined.setZoomLevel.
  change (0 * 0.002) with 0. change (-0 * 0.002) with (-0).
  change (0 * 0.001) with 0. change (-0 * 0.001) with (-0).
  cbv zeta. rewrite S0, S1, D0, D1.
  rewrite (clamp_inside 0.3 8 _ eq_refl eq_refl Hs).
  rewrite (clamp_inside 0.1 5 _ eq_refl eq_refl Hd).
  destruct s, d. repeat split.
Qed.

Lemma wheel_without_movement_witness :
  Refined.handleWheel 0 Refined.initial = ([PreventDefault], Refined.initial).
Proof.
  apply (wheel_without_movement Refined.initial Draft.initial eq_refl eq_refl).
Defined.

(** X14: the pixel ratio handed to the canvas is the device's ratio when that
    is at most 2 and 2 otherwise, so it never exceeds 2; this for every ratio
    that is a number. *)
Theorem dpr_is_capped (devicePixelRatio : float) :
  is_nan devicePixelRatio = false ->
  Refined.Canvas_dpr devicePixelRatio
    = (if devicePixelRatio <=? 2 then devicePixelRatio else 2) /\
  (Refined.Canvas_dpr devicePixelRatio <=? 2) = true.
Proof.
  intros H. split.
  - unfold Refined.Canvas_dpr, Math_min. rewrite H. simpl.
    rewrite leb_fcmp, !ltb_fcmp, (fcmp_antisym devicePixelRatio 2).
    destruct (fcmp_some devicePixelRatio 2 H eq_refl) as [c Hc]. rewrite Hc.
    destruct c; reflexivity.
  - now apply Math_min_le.
Qed.

Lemma dpr_is_capped_witness :
  Refined.Canvas_dpr 3 = 2 /\ Refined.Canvas_dpr 1.5 = 1.5.
Proof.
  split.
  - exact (proj1 (dpr_is_capped 3 eq_refl)).
  - exact (proj1 (dpr_is_capped 1.5 eq_refl)).
Defined.

(* ================================================================= *)
(** ** Planes, their props and the layout *)

Lemma dispatch_keeps_imageError p s ev :
  Refined.imageError (Refined.ImagePlane_dispatch p s ev) = Refined.imageError s.
Proof.
  unfold Refined.ImagePlane_dispatch, Refined.ImagePlane.
  destruct ev; destruct (Refined.imageError s) eqn:E; simpl; congruence.
Qed.

(** X15: the events that reach a plane never bring the fallback: after any
    pointer events, a plane that had no error still has none and still renders
    the image of its own url, at opacity 1 when hovered and 0.9 otherwise. *)
Theorem no_fallback_without_load_error (p : Refined.ImagePlaneProps)
    (s : Refined.ImagePlaneState) (evs : list Refined.PlaneEvent) :
  Refined.imageError s = false ->
  let s' := Refined.ImagePlane_run p s evs in
  Refined.imageError s' = false /\
  Refined.source_of (Refined.ImagePlane p s') = Some (Refined.url p) /\
  Refined.opacity_of (Refined.ImagePlane p s')
    = (if Refined.hovered s' then 1 else 0.9).
Proof.
  intros Hs s'.
  assert (H : Refined.imageError s' = false).
  { unfold s'. clear s'. revert s Hs.
    induction evs as [|ev evs IH]; intros s Hs; simpl.
    - exact Hs.
    - apply IH. now rewrite dispatch_keeps_imageError. }
  split; [exact H|].
  unfold Refined.ImagePlane. rewrite H. simpl. split; reflexivity.
Qed.

Lemma no_fallback_without_load_error_witness :
  let p := {| Refined.url := "a.png"; Refined.position := arr3 0 0 0;
              Refined.rotation := arr3 0 0 0; Refined.scale := arr3 4 3 1;
              Refined.index := 2; Refined.scrollOffset := 0 |} in
  Refined.imageError
    (Refined.ImagePlane_run p Refined.ImagePlane_initial
       [Refined.PointerOver; Refined.PointerDown; Refined.PointerUp;
        Refined.PointerOut]) = false.
Proof.
  intros p.
  apply (no_fallback_without_load_error p Refined.ImagePlane_initial
           [Refined.PointerOver; Refined.PointerDown; Refined.PointerUp;
            Refined.PointerOut] eq_refl).
Defined.

Lemma offset_or_zero_is_number scroll :
  is_nan (Refined.offset_or_zero scroll) = false.
Proof.
  destruct scroll as [o|]; simpl; [|reflexivity].
  destruct (is_nan o) eqn:E; simpl; [reflexivity|].
  destruct (is_zero o); [reflexivity | exact E].
Qed.

Lemma planes_from_spec scroll images : forall i,
  map Refined.index (Refined.planes_from i scroll images)
    = seq i (List.length images) /\
  map (fun pl => {| Refined.d_url := Refined.url pl;
                    Refined.d_position := Refined.position pl;
                    Refined.d_rotation := Refined.rotation pl;
                    Refined.d_scale := Refined.scale pl |})
      (Refined.planes_from i scroll images) = images /\
  Forall (fun pl => Refined.scrollOffset pl = Refined.offset_or_zero scroll)
         (Refined.planes_from i scroll images).
Proof.
  induction images as [|[u po ro sc] images IH]; intros i; simpl.
  - repeat split. constructor.
  - destruct (IH (S i)) as (H1 & H2 & H3).
    rewrite H1, H2. repeat split. constructor; [reflexivity | exact H3].
Qed.

Lemma planes_from_offset sc1 sc2 images : forall i,
  Refined.offset_or_zero sc1 = Refined.offset_or_zero sc2 ->
  Refined.planes_from i sc1 images = Refined.planes_from i sc2 images.
Proof.
  induction images as [|image images IH]; intros i H; simpl.
  - reflexivity.
  - now rewrite H, (IH (S i) H).
Qed.

(** X16: the scroll content renders one plane per image descriptor, in order,
    the k-th plane with index k and with the url, position, rotation and scale
    of the k-th descriptor; all planes get the same scroll offset, which is a
    number even when the scroll framework is missing or reports NaN (it is 0
    then), although the scroll progress published from the same frame is that
    NaN. *)
Theorem scroll_content_planes (scroll : option float)
    (images : list Refined.ImageDescriptor) (s : Refined.State) :
  let planes := Refined.ScrollContent scroll images in
  map Refined.index planes = seq 0 (List.length images) /\
  map (fun pl => {| Refined.d_url := Refined.url pl;
                    Refined.d_position := Refined.position pl;
                    Refined.d_rotation := Refined.rotation pl;
                    Refined.d_scale := Refined.scale pl |}) planes = images /\
  Forall (fun pl => Refined.scrollOffset pl = Refined.offset_or_zero scroll
                    /\ is_nan (Refined.scrollOffset pl) = false) planes /\
  Refined.ScrollContent (Some nan) images = Refined.ScrollContent None images /\
  Refined.scrollProgress (Refined.step s (Refined.ScrollFrame (Some nan))) = nan.
Proof.
  intros planes. destruct (planes_from_spec scroll images 0) as (H1 & H2 & H3).
  repeat split; trivial.
  - apply Forall_forall. intros pl Hin. rewrite Forall_forall in H3.
    rewrite (H3 pl Hin). split; [reflexivity | apply offset_or_zero_is_number].
  - now apply planes_from_offset.
Qed.

(** The layout calls [Math.random()] eight times for each image. *)
Lemma imageElement_spec sin cos rnd path i k :
  let r := Refined.imageElement sin cos rnd path i k in
  snd r = (k + 8)%nat /\
  Refined.d_url (fst r) = path /\
  at2 (Refined.d_scale (fst r)) = 1.
Proof.
  cbv [Refined.imageElement Refined.bind Refined.getRandom_call Refined.random
       Refined.ret fst snd]. repeat split.
  repeat rewrite <- plus_n_Sm. now rewrite Nat.add_0_r.
Qed.

Lemma imageElements_from_spec sin cos rnd paths : forall i k,
  let r := Refined.imageElements_from sin cos rnd i paths k in
  map Refined.d_url (fst r) = paths /\
  snd r = (k + 8 * List.length paths)%nat /\
  Forall (fun d => at2 (Refined.d_scale d) = 1) (fst r).
Proof.
  induction paths as [|path paths IH]; intros i k; simpl.
  - repeat split; [lia | constructor].
  - unfold Refined.bind.
    destruct (imageElement_spec sin cos rnd path i k) as (Hk & Hu & Hz).
    destruct (Refined.imageElement sin cos rnd path i k) as [d k1]. simpl in *.
    destruct (IH (S i) k1) as (H1 & H2 & H3).
    destruct (Refined.imageElements_from sin cos rnd (S i) paths k1) as [ds k2].
    simpl in *. subst. repeat split; [lia|]. constructor; assumption.
Qed.

(** X17: the layout of the refined component makes one descriptor per image
    path, in the order of the catalog and with that path as url, gives every
    descriptor the third scale component 1, and calls [Math.random()] exactly
    eight times per image, whatever the catalog and the random draws. *)
Theorem layout_follows_catalog (Math_sin Math_cos : float -> float)
    (Math_random : nat -> float) (imagePaths : list string) (calls : nat) :
  let r := Refined.imageElements Math_sin Math_cos Math_random imagePaths calls in
  map Refined.d_url (fst r) = imagePaths /\
  List.length (fst r) = List.length imagePaths /\
  snd r = (calls + 8 * List.length imagePaths)%nat /\
  Forall (fun d => at2 (Refined.d_scale d) = 1) (fst r).
Proof.
  intros r.
  destruct (imageElements_from_spec Math_sin Math_cos Math_random imagePaths 0 calls)
    as (H1 & H2 & H3).
  fold r in H1, H2, H3. repeat split; trivial.
  apply (f_equal (@List.length string)) in H1. now rewrite length_map in H1.
Qed.

Lemma draft_imageElement_spec rnd path k :
  let r := Draft.imageElement rnd path k in
  snd r = (k + 9)%nat /\
  Refined.d_url (fst r) = path /\
  at2 (Refined.d_scale (fst r)) = 1.
Proof.
  cbv [Draft.imageElement Refined.bind Refined.getRandom_call Refined.random
       Refined.ret fst snd]. repeat split.
  repeat rewrite <- plus_n_Sm. now rewrite Nat.add_0_r.
Qed.

(** X18: the layout of the draft likewise makes one descriptor per image
    path, in order, with the third scale component 1, and calls
    [Math.random()] nine times per image; being evaluated at every render, a
    second render draws after the first and so reads other random numbers. *)
Theorem draft_layout_follows_catalog (Math_random : nat -> float)
    (imagePaths : list string) (calls : nat) :
  let r := Draft.imageElements Math_random imagePaths calls in
  let again := Draft.imageElements Math_random imagePaths (snd r) in
  map Refined.d_url (fst r) = imagePaths /\
  snd r = (calls + 9 * List.length imagePaths)%nat /\
  Forall (fun d => at2 (Refined.d_scale d) = 1) (fst r) /\
  snd again = (calls + 18 * List.length imagePaths)%nat.
Proof.
  assert (G : forall paths k,
            let r := Draft.imageElements Math_random paths k in
            map Refined.d_url (fst r) = paths /\
            snd r = (k + 9 * List.length paths)%nat /\
            Forall (fun d => at2 (Refined.d_scale d) = 1) (fst r)).
  { induction paths as [|path paths IH]; intros k; simpl.
    - repeat split; [lia | constructor].
    - unfold Refined.bind.
      destruct (draft_imageElement_spec Math_random path k) as (Hk & Hu & Hz).
      destruct (Draft.imageElement Math_random path k) as [d k1]. simpl in *.
      destruct (IH k1) as (H1 & H2 & H3).
      destruct (Draft.imageElements Math_random paths k1) as [ds k2].
      simpl in *. subst. repeat split; [lia|]. constructor; assumption. }
  intros r again.
  destruct (G imagePaths calls) as (H1 & H2 & H3). fold r in H1, H2, H3.
  destruct (G imagePaths (snd r)) as (_ & H5 & _). fold again in H5.
  repeat split; trivial. rewrite H5, H2. lia.
Qed.

(* ================================================================= *)
(** ** Parallax *)

(** *** A finite number times a number below one half is finite *)

Lemma digits2_pos_size p : digits2_pos p = Pos.size p.
Proof. induction p; simpl; congruence. Qed.

Lemma Zdigits2_log2 p : Zdigits2 (Zpos p) = (Z.log2 (Zpos p) + 1)%Z.
Proof.
  simpl. destruct p; simpl; rewrite ?digits2_pos_size; lia.
Qed.

Lemma Zdigits2_nonneg m : (0 <= Zdigits2 m)%Z.
Proof. destruct m; simpl; lia. Qed.

Lemma Zdigits2_mul a b :
  (Zdigits2 (Zpos (a * b)) <= Zdigits2 (Zpos a) + Zdigits2 (Zpos b))%Z.
Proof.
  rewrite !Zdigits2_log2, Pos2Z.inj_mul.
  pose proof (Z.log2_mul_above (Zpos a) (Zpos b)). lia.
Qed.

Lemma Zdigits2_succ m : (0 <= m -> Zdigits2 (m + 1) <= Zdigits2 m + 1)%Z.
Proof.
  intros H. destruct m as [|p|p]; try lia.
  - reflexivity.
  - change (Z.pos p + 1)%Z with (Z.pos (p + 1)). rewrite !Zdigits2_log2.
    rewrite Pos2Z.inj_add. pose proof (Z.log2_succ_le (Zpos p)) as H1.
    unfold Z.succ in H1. lia.
Qed.

Lemma iter_pos_nat {A} (f : A -> A) p : forall a,
  SpecFloat.iter_pos f p a = Nat.iter (Pos.to_nat p) f a.
Proof.
  induction p as [p IH|p IH|]; intros a.
  - rewrite Pos2Nat.inj_xI. cbn [SpecFloat.iter_pos]. rewrite !IH.
    replace (S (2 * Pos.to_nat p)) with (Pos.to_nat p + S (Pos.to_nat p))%nat by lia.
    now rewrite Nat.iter_add, Nat.iter_succ_r.
  - rewrite Pos2Nat.inj_xO. cbn [SpecFloat.iter_pos]. rewrite !IH.
    replace (2 * Pos.to_nat p)%nat with (Pos.to_nat p + Pos.to_nat p)%nat by lia.
    now rewrite Nat.iter_add.
  - reflexivity.
Qed.

Lemma shr_1_digits mrs :
  (0 <= shr_m mrs)%Z ->
  (0 <= shr_m (shr_1 mrs))%Z /\
  Zdigits2 (shr_m (shr_1 mrs)) = Z.max 0 (Zdigits2 (shr_m mrs) - 1).
Proof.
  destruct mrs as [m r s]. cbn [shr_m].
  destruct m as [|[p|p|]|p]; cbn [shr_1 shr_m Zdigits2 digits2_pos];
    intros H; split; try lia; rewrite ?Pos2Z.inj_succ; lia.
Qed.

Lemma iter_shr_1_digits n : forall mrs,
  (0 <= shr_m mrs)%Z ->
  (0 <= shr_m (Nat.iter n shr_1 mrs))%Z /\
  Zdigits2 (shr_m (Nat.iter n shr_1 mrs))
    = Z.max 0 (Zdigits2 (shr_m mrs) - Z.of_nat n).
Proof.
  induction n as [|n IH]; intros mrs H.
  - simpl. pose proof (Zdigits2_nonneg (shr_m mrs)). split; lia.
  - rewrite Nat.iter_succ. destruct (IH mrs H) as [H1 H2].
    destruct (shr_1_digits _ H1) as [H3 H4]. split; [exact H3|].
    rewrite H4, H2. lia.
Qed.

Lemma shr_fexp_digits m e l :
  (0 <= m)%Z ->
  let r := shr_fexp prec emax m e l in
  (0 <= shr_m (fst r))%Z /\
  snd r = Z.max e (fexp prec emax (Zdigits2 m + e)) /\
  Zdigits2 (shr_m (fst r)) = Z.max 0 (Zdigits2 m - (snd r - e)).
Proof.
  intros Hm. unfold shr_fexp, shr.
  assert (H0 : shr_m (shr_record_of_loc m l) = m) by now destruct l as [|[]].
  pose proof (Zdigits2_nonneg m) as Hd.
  destruct (fexp prec emax (Zdigits2 m + e) - e)%Z as [|p|p] eqn:E; simpl.
  - rewrite H0. repeat split; lia.
  - rewrite iter_pos_nat.
    destruct (iter_shr_1_digits (Pos.to_nat p) (shr_record_of_loc m l)) as [H1 H2];
      [rewrite H0; exact Hm|].
    rewrite H0 in H2. rewrite positive_nat_Z in H2.
    repeat split; [exact H1 | lia | rewrite H2; f_equal; lia].
  - rewrite H0. repeat split; lia.
Qed.

Lemma fexp_eq e : fexp prec emax e = Z.max (e - 53) (-1074).
Proof. reflexivity. Qed.

Lemma SFmul_small_finite sx mx ex sy my ey :
  valid_binary (S754_finite sx mx ex) = true ->
  (Zdigits2 (Zpos my) + ey <= -1)%Z ->
  SFfinite (SFmul prec emax (S754_finite sx mx ex) (S754_finite sy my ey)) = true.
Proof.
  intros Hv Hy. simpl in Hv. unfold bounded, canonical_mantissa in Hv.
  apply andb_true_iff in Hv. destruct Hv as [Hc Hb].
  apply Z.eqb_eq in Hc. apply Z.leb_le in Hb.
  change (Z.pos (digits2_pos mx)) with (Zdigits2 (Zpos mx)) in Hc.
  unfold SFmul, binary_round_aux.
  pose proof (Zdigits2_mul mx my) as HM.
  pose proof (shr_fexp_digits (Zpos (mx * my)) (ex + ey) loc_Exact ltac:(lia)) as H1.
  destruct (shr_fexp prec emax (Zpos (mx * my)) (ex + ey) loc_Exact) as [mrs1 e1].
  cbn [fst snd] in H1. destruct H1 as (P1 & E1 & D1).
  set (m2 := round_nearest_even (shr_m mrs1) (loc_of_shr_record mrs1)).
  assert (P2 : (0 <= m2)%Z).
  { unfold m2. destruct (loc_of_shr_record mrs1) as [|[]]; simpl; try lia.
    destruct (Z.even (shr_m mrs1)); lia. }
  assert (D2 : (Zdigits2 m2 <= Zdigits2 (shr_m mrs1) + 1)%Z).
  { unfold m2. destruct (loc_of_shr_record mrs1) as [|[]]; simpl; try lia.
    - destruct (Z.even (shr_m mrs1)); [lia | now apply Zdigits2_succ].
    - now apply Zdigits2_succ. }
  pose proof (shr_fexp_digits m2 e1 loc_Exact P2) as H2.
  destruct (shr_fexp prec emax m2 e1 loc_Exact) as [mrs2 e2].
  cbn [fst snd] in H2. destruct H2 as (P3 & E2 & D3).
  destruct (shr_m mrs2) as [|m|m]; try reflexivity; try lia.
  assert (Hle : (e2 <= emax - prec)%Z).
  { rewrite fexp_eq in *. change prec with 53%Z in *. change emax with 1024%Z in *.
    pose proof (Zdigits2_nonneg (Zpos my)). pose proof (Zdigits2_nonneg (Zpos mx)).
    pose proof (Zdigits2_nonneg (Zpos (mx * my))). lia. }
  apply Z.leb_le in Hle. now rewrite Hle.
Qed.

Lemma mul_tenth_finite a : finite_number a = true -> finite_number (a * 0.1) = true.
Proof.
  unfold finite_number. intros H. rewrite FloatAxioms.mul_spec.
  pose proof (Prim2SF_valid a) as Hv.
  change (Prim2SF 0.1) with (S754_finite false 7205759403792794 (-56)).
  destruct (Prim2SF a) as [s|s| |s m e]; try discriminate.
  - reflexivity.
  - apply SFmul_small_finite; [exact Hv | vm_compute; discriminate].
Qed.

(** A finite number times zero is a zero. *)
Lemma mul_zero_r a : finite_number a = true -> a * 0 = 0 \/ a * 0 = -0.
Proof.
  unfold finite_number. intros H.
  assert (G : exists s, Prim2SF (a * 0) = S754_zero s).
  { rewrite FloatAxioms.mul_spec. change (Prim2SF 0) with (S754_zero false).
    destruct (Prim2SF a) as [s|s| |s m e]; try discriminate; simpl; eauto. }
  destruct G as [[] G]; [right | left]; apply Prim2SF_inj; rewrite G; reflexivity.
Qed.

(** Adding a zero of either sign to a finite non-zero number changes nothing. *)
Lemma add_any_zero_r a :
  nonzero_finite a = true -> a + 0 = a /\ a + (-0) = a.
Proof.
  unfold nonzero_finite. intros H.
  split; apply Prim2SF_inj; rewrite FloatAxioms.add_spec.
  - change (Prim2SF 0) with (S754_zero false).
    destruct (Prim2SF a) as [?|?| |s m e]; try discriminate; reflexivity.
  - change (Prim2SF (-0)) with (S754_zero true).
    destruct (Prim2SF a) as [?|?| |s m e]; try discriminate; reflexivity.
Qed.

(** Multiplying by minus one flips the sign and nothing else. *)
Lemma SFmul_minus_one_r s m e :
  valid_binary (S754_finite s m e) = true ->
  SFmul prec emax (S754_finite s m e) (Prim2SF (-1)) = S754_finite (negb s) m e.
Proof.
  intros Hv. change (Prim2SF (-1)) with (S754_finite true 4503599627370496 (-52)).
  simpl in Hv. unfold bounded, canonical_mantissa in Hv.
  apply andb_true_iff in Hv. destruct Hv as [Hc Hb].
  apply Z.eqb_eq in Hc.
  unfold SFmul. rewrite xorb_true_r.
  rewrite (Pos.mul_comm m).
  unfold binary_round_aux, shr_fexp.
  unfold Zdigits2 at 1. rewrite digits2_pos_shift52.
  replace (Z.pos (digits2_pos m) + 52 + (e + -52))%Z
    with (Z.pos (digits2_pos m) + e)%Z by lia.
  rewrite Hc.
  replace (e - (e + -52))%Z with 52%Z by lia.
  cbn [shr shr_record_of_loc SpecFloat.iter_pos shr_1 Pos.mul shr_m shr_r shr_s orb
       loc_of_shr_record round_nearest_even Zdigits2].
  replace (e + -52 + 52)%Z with e by lia.
  rewrite Hc, Z.sub_diag. cbn [shr shr_m]. now rewrite Hb.
Qed.

Lemma mul_minus_one_r a : a * (-1) = - a.
Proof.
  apply Prim2SF_inj. rewrite FloatAxioms.mul_spec, FloatAxioms.opp_spec.
  pose proof (Prim2SF_valid a) as Hv. unfold SF64mul.
  destruct (Prim2SF a) as [s|s| |s m e].
  - change (Prim2SF (-1)) with (S754_finite true 4503599627370496 (-52)).
    simpl. now rewrite xorb_true_r.
  - change (Prim2SF (-1)) with (S754_finite true 4503599627370496 (-52)).
    simpl. now rewrite xorb_true_r.
  - reflexivity.
  - now apply SFmul_minus_one_r.
Qed.

(** X19: the scroll parallax sorts the planes by index into three classes.
    With t = scrollOffset * 0.1 and z the depth of the layout, every frame
    puts a plane whose index leaves remainder 0 on division by 3 at depth
    z + (-t), one with remainder 2 at z + t, and leaves one with remainder 1
    exactly at z; this for every finite scroll offset and every finite
    non-zero z. *)
Theorem parallax_by_index_class (Math_sin Math_cos : float -> float)
    (p : Refined.ImagePlaneProps) (fo : Refined.FloatOffset)
    (s : Refined.ImagePlaneState) (time : float) (m : Refined.Object3D) :
  finite_number (Refined.scrollOffset p) = true ->
  nonzero_finite (at2 (Refined.position p)) = true ->
  let z := at2 (Refined.position p) in
  let t := Refined.scrollOffset p * 0.1 in
  option_map (fun o => at2 (Refined.obj_position o))
    (Refined.ImagePlane_useFrame Math_sin Math_cos p fo s time (Some m))
  = Some (match (Refined.index p mod 3)%nat with
          | 0%nat => z + - t
          | 1%nat => z
          | _ => z + t
          end).
Proof.
  intros Hs Hz z t. unfold Refined.ImagePlane_useFrame.
  cbn [option_map Refined.obj_position at2]. f_equal. fold z. fold t.
  assert (Hlt : (Refined.index p mod 3 < 3)%nat)
    by (apply Nat.mod_upper_bound; discriminate).
  destruct (Refined.index p mod 3)%nat as [|[|[|k]]]; try lia.
  - change (Number_of_index 0 - 1) with (-1). now rewrite mul_minus_one_r.
  - change (Number_of_index 1 - 1) with 0.
    destruct (mul_zero_r t (mul_tenth_finite _ Hs)) as [H|H]; rewrite H;
      now apply add_any_zero_r.
  - change (Number_of_index 2 - 1) with 1. now rewrite mul_one_r.
Qed.

Lemma parallax_by_index_class_witness :
  let p := {| Refined.url := ""; Refined.position := arr3 1 2 (-3);
              Refined.rotation := arr3 0 0 0; Refined.scale := arr3 4 3 1;
              Refined.index := 7; Refined.scrollOffset := 0.5 |} in
  option_map (fun o => at2 (Refined.obj_position o))
    (Refined.ImagePlane_useFrame (fun t => t) (fun t => t) p
       (Refined.floatOffset_of_draws 0.1 0.2 0.3 0.4 0.5)
       Refined.ImagePlane_initial 2
       (Some {| Refined.obj_position := arr3 0 0 0;
                Refined.obj_scale := arr3 4 3 1;
                Refined.obj_rotation := arr3 0 0 0 |}))
  = Some (-3).
Proof.
  intros p.
  apply (parallax_by_index_class (fun t => t) (fun t => t) p
           (Refined.floatOffset_of_draws 0.1 0.2 0.3 0.4 0.5)
           Refined.ImagePlane_initial 2
           {| Refined.obj_position := arr3 0 0 0;
              Refined.obj_scale := arr3 4 3 1;
              Refined.obj_rotation := arr3 0 0 0 |}
           eq_refl eq_refl).
Defined.

(* ================================================================= *)
(** ** The listeners *)

Lemma program_step_in_scene m ev :
  Refined.listening m = true ->
  Refined.in_scene (Refined.state m) = true ->
  Refined.is_failure ev = false ->
  Refined.program_step m ev
  = {| Refined.state := Refined.step (Refined.state m) ev;
       Refined.listening := true |} /\
  Refined.in_scene (Refined.step (Refined.state m) ev) = true.
Proof.
  intros Hl Hs Hev.
  assert (Hs' : Refined.in_scene (Refined.step (Refined.state m) ev) = true).
  { unfold Refined.in_scene in *. now rewrite canvasError_kept. }
  split; [|exact Hs'].
  unfold Refined.program_step.
  assert (Hd : Refined.delivered m ev = true).
  { destruct ev; try discriminate; simpl; rewrite ?Hl, ?Hs; reflexivity. }
  rewrite Hd. cbv zeta. rewrite Hs', Hl.
  now destruct (Refined.effect_reruns _ _ _).
Qed.

(** X20: as long as the rendering surface has not failed, the program handles
    every event and keeps its listeners: from the scene with the listeners
    registered (the mounted component is so), a run without a lost context
    ends in the state that handling each event in turn gives, still in the
    scene and with the listeners registered. *)
Theorem every_event_is_handled_in_the_scene (m : Refined.Mounted)
    (evs : list Refined.Event) :
  Refined.listening m = true ->
  Refined.in_scene (Refined.state m) = true ->
  existsb Refined.is_failure evs = false ->
  Refined.program_run m evs
  = {| Refined.state := Refined.run (Refined.state m) evs;
       Refined.listening := true |} /\
  Refined.in_scene (Refined.run (Refined.state m) evs) = true.
Proof.
  revert m. induction evs as [|ev evs IH]; intros m Hl Hs Hevs; simpl.
  - split; [|exact Hs]. destruct m as [s l]. simpl in *. now subst l.
  - simpl in Hevs. apply orb_false_iff in Hevs. destruct Hevs as [Hev Hevs].
    destruct (program_step_in_scene m ev Hl Hs Hev) as [H1 H2].
    rewrite H1. now apply IH.
Qed.

Lemma every_event_is_handled_in_the_scene_witness :
  Refined.program_run Refined.mount
    [Refined.MouseDown 5 5; Refined.MouseMove 25 5; Refined.MouseUp;
     Refined.KeyDown "a"; Refined.Wheel (-100)]
  = {| Refined.state :=
         Refined.run Refined.initial
           [Refined.MouseDown 5 5; Refined.MouseMove 25 5; Refined.MouseUp;
            Refined.KeyDown "a"; Refined.Wheel (-100)];
       Refined.listening := true |}.
Proof.
  apply (every_event_is_handled_in_the_scene Refined.mount
           [Refined.MouseDown 5 5; Refined.MouseMove 25 5; Refined.MouseUp;
            Refined.KeyDown "a"; Refined.Wheel (-100)] eq_refl eq_refl eq_refl).
Defined.







